(** * SayMyScope: the scope filter of [saymyscope.py]

    A shallow embedding of the loader, the matcher, the two scope filters
    and the writer of [saymyscope.py], and the properties of the
    specification that are about them.

    Representation of the Python data:
    - [str] is [string] (a string of bytes; for ASCII text the bytes are the
      code points, and byte-wise lexicographic order on UTF-8 is code point
      order);
    - a [set] that the program only tests for membership, or only returns, is
      a [gset string];
    - a [set] that the program iterates over is the duplicate-free list of
      its elements in iteration order.  CPython promises nothing about that
      order, so the statements quantify over every such list, and the order
      of a set the program builds itself is the runtime's [set_order];
    - the [dict] [removed_domain_info] is a [gmap] from the hostname to the
      triple [(count, reason, matched_pattern)];
    - an exception that the program does not catch is the [Raise] outcome
      of a [result]. *)

From Stdlib Require Import Ascii.
From stdpp Require Import base list strings gmap sets sorting.

Set Default Proof Using "Type".

(** ** Outcomes of fallible code *)

Inductive exn : Type := ValueError.

Inductive result (A : Type) : Type :=
| Ok (a : A)
| Raise (e : exn).
Arguments Ok {A} a.
Arguments Raise {A} e.

(** The error monad: [x ← r; k] runs [k] on the value of [r] and propagates
    the exception of [r]. *)
#[export] Instance result_ret : MRet result := λ A a, Ok a.
#[export] Instance result_bind : MBind result := λ A B k r,
  match r with
  | Ok a => k a
  | Raise e => Raise e
  end.

(** [for x in l: st = body(st, x)], stopping at the first exception. *)
Fixpoint for_each {S A : Type} (body : S → A → result S) (st : S)
    (l : list A) : result S :=
  match l with
  | [] => Ok st
  | x :: l' => st' ← body st x; for_each body st' l'
  end.

(** ** The library functions the program calls *)

(** The program is a client of [fnmatch.fnmatch], [str.lower], [str.strip],
    [urllib.parse.urlparse(...).hostname] and of the iteration order of the
    sets it builds.  The filters are defined over any implementation of
    these; [cpython] below is the concrete one. *)
Class Runtime : Type := {
  (** [fnmatch.fnmatch(name, pat)] *)
  fnmatch : string → string → bool;
  (** [s.lower()] *)
  str_lower : string → string;
  (** [s.strip()] *)
  str_strip : string → string;
  (** [urlparse(url).hostname]: [Raise ValueError] when [urlparse] raises,
      [Ok None] when the attribute is [None] *)
  urlparse_hostname : string → result (option string);
  (** the iteration order of the set built from the elements [l] *)
  set_order : list string → list string;
  set_order_NoDup : ∀ l, NoDup (set_order l);
  set_order_elem_of : ∀ l x, x ∈ set_order l ↔ x ∈ l;
}.

(** ** Python primitives used by the filters *)

(** [c in s] for a one-character [c]. *)
Fixpoint contains_char (c : ascii) (s : string) : bool :=
  match s with
  | EmptyString => false
  | String a s' => if decide (a = c) then true else contains_char c s'
  end.

(** ['*' in s] *)
Definition has_star (s : string) : bool := contains_char "*"%char s.

(** [s.startswith(p)] *)
Fixpoint startswith (p s : string) : bool :=
  match p, s with
  | EmptyString, _ => true
  | String a p', String b s' =>
      if decide (a = b) then startswith p' s' else false
  | String _ _, EmptyString => false
  end.

(** The value a Python [if v:] lets through: [None] and the empty string are
    false, every other string is true. *)
Definition truthy (v : option string) : option string :=
  match v with
  | Some EmptyString => None
  | _ => v
  end.

(** One row of the subdomain report: [[subdomain, reason, matched_pattern]]. *)
Definition removal : Type := string * string * string.

(** The four sets [filter_urls] sorts the out-of-scope entries into. *)
Record buckets : Type := Buckets {
  domain_exact : gset string;
  domain_wildcards : list string;
  url_exact : gset string;
  url_wildcards : list string;
}.

Section filters.
Context `{RT : Runtime}.

(** *** [matches_wildcard] *)
Fixpoint matches_wildcard (item : string) (wildcard_patterns : list string)
  : option string :=
  match wildcard_patterns with
  | [] => None
  | pattern :: rest =>
      if fnmatch item pattern then Some pattern
      else matches_wildcard item rest
  end.

(** *** [filter_subdomains] *)

(** The body of the loop over [subdomains]. *)
Definition subdomain_body (exact_matches : gset string)
    (wildcard_patterns : list string)
    (st : gset string * list removal) (subdomain : string)
  : gset string * list removal :=
  let '(in_scope, removed_domains) := st in
  if decide (subdomain ∈ exact_matches) then
    (in_scope, removed_domains ++ [(subdomain, "exact match", subdomain)])
  else
    match truthy (matches_wildcard subdomain wildcard_patterns) with
    | Some matched_pattern =>
        (in_scope,
         removed_domains ++ [(subdomain, "wildcard match", matched_pattern)])
    | None => ({[subdomain]} ∪ in_scope, removed_domains)
    end.

Definition filter_subdomains (subdomains out_of_scope : list string)
  : gset string * list removal :=
  let exact_matches : gset string :=
    list_to_set (filter (λ domain, has_star domain = false) out_of_scope) in
  let wildcard_patterns :=
    set_order (filter (λ domain, has_star domain = true) out_of_scope) in
  foldl (subdomain_body exact_matches wildcard_patterns) (∅, []) subdomains.

(** *** [filter_urls] *)

(** The body of the loop over [out_of_scope]; the two wildcard components
    are the elements in the order they were added. *)
Definition classify_body (b : buckets) (pattern : string) : buckets :=
  if startswith "http://" pattern || startswith "https://" pattern then
    if has_star pattern then
      Buckets (domain_exact b) (domain_wildcards b)
              (url_exact b) (url_wildcards b ++ [pattern])
    else
      Buckets (domain_exact b) (domain_wildcards b)
              ({[pattern]} ∪ url_exact b) (url_wildcards b)
  else
    if has_star pattern then
      Buckets (domain_exact b) (domain_wildcards b ++ [pattern])
              (url_exact b) (url_wildcards b)
    else
      Buckets ({[pattern]} ∪ domain_exact b) (domain_wildcards b)
              (url_exact b) (url_wildcards b).

(** The four sets after the classification loop, the wildcard sets in
    their iteration order. *)
Definition classify (out_of_scope : list string) : buckets :=
  let b := foldl classify_body (Buckets ∅ [] ∅ []) out_of_scope in
  Buckets (domain_exact b) (set_order (domain_wildcards b))
          (url_exact b) (set_order (url_wildcards b)).

(** The two statements every removing branch runs:
    [if domain not in info: info[domain] = [0, reason, pattern]] and
    [info[domain][0] += 1]. *)
Definition record_removal (domain reason pattern : string)
    (info : gmap string (nat * string * string))
  : gmap string (nat * string * string) :=
  let info' :=
    match info !! domain with
    | None => <[domain := (0, reason, pattern)]> info
    | Some _ => info
    end in
  alter (λ '(count, r, p), (count + 1, r, p)) domain info'.

(** The body of the loop over [urls]. *)
Definition url_body (b : buckets)
    (st : gset string * gmap string (nat * string * string)) (url : string)
  : result (gset string * gmap string (nat * string * string)) :=
  let '(in_scope, removed_domain_info) := st in
  hostname ← urlparse_hostname url;
  match truthy hostname with
  | None => Ok st
  | Some domain =>
      let full_url := str_lower url in
      if decide (full_url ∈ url_exact b) then
        Ok (in_scope,
            record_removal domain "exact URL match" full_url
              removed_domain_info)
      else
        match truthy (matches_wildcard full_url (url_wildcards b)) with
        | Some matched_url_pattern =>
            Ok (in_scope,
                record_removal domain "wildcard URL match"
                  matched_url_pattern removed_domain_info)
        | None =>
            if decide (domain ∈ domain_exact b) then
              Ok (in_scope,
                  record_removal domain "exact domain match" domain
                    removed_domain_info)
            else
              match truthy (matches_wildcard domain (domain_wildcards b)) with
              | Some matched_domain_pattern =>
                  Ok (in_scope,
                      record_removal domain "wildcard domain match"
                        matched_domain_pattern removed_domain_info)
              | None => Ok ({[url]} ∪ in_scope, removed_domain_info)
              end
        end
  end.

Definition filter_urls (urls out_of_scope : list string)
  : result (gset string * gmap string (nat * string * string)) :=
  for_each (url_body (classify out_of_scope)) (∅, ∅) urls.
End filters.

(** ** The loader and the writer *)

(** How a part of the program ends: it returns, it calls [exit(code)], or
    an exception nothing catches goes up to the interpreter. *)
Inductive uncaught : Type :=
| UncaughtOSError
| UncaughtValueError.

Inductive ending (A : Type) : Type :=
| Returns (a : A)
| Exits (code : nat)
| Uncaught (e : uncaught).
Arguments Returns {A} a.
Arguments Exits {A} code.
Arguments Uncaught {A} e.

#[export] Instance ending_ret : MRet ending := λ A a, Returns a.


(** What [open] and the [for line in f] loop of [load_file] see. *)
Inductive file : Type :=
| Missing
    (** [open] raises [FileNotFoundError] *)
| Unopenable
    (** [open] raises another [OSError] (a directory, no permission), which
        [load_file] does not catch *)
| Utf8 (lines : list string)
    (** the file decodes as UTF-8 into [lines] *)
| NotUtf8 (read latin1 : list string).
    (** the UTF-8 loop yields [read] and then raises [UnicodeDecodeError];
        the latin-1 loop yields [latin1] *)

(** Python's [sorted] on strings: a stable merge sort by [<=], the
    lexicographic order of the characters. *)
Definition sorted (items : list string) : list string :=
  merge_sort String.le items.

(** The newline character and [f"{item}\n"]. *)
Definition newline : string := String "010"%char EmptyString.

Definition line_of (item : string) : string := item +:+ newline.

Section files.
Context `{RT : Runtime}.

(** The body of both reading loops: the elements added so far. *)
Definition load_body (items : list string) (line : string) : list string :=
  let stripped := str_strip line in
  match truthy (Some stripped) with
  | Some _ => items ++ [stripped]
  | None => items
  end.

(** [load_file]: the returned set in its iteration order. *)
Definition load_file (f : file) : ending (list string) :=
  match f with
  | Utf8 lines => Returns (set_order (foldl load_body [] lines))
  | NotUtf8 read latin1 =>
      Returns (set_order (foldl load_body (foldl load_body [] read) latin1))
  | Missing => Exits 1
  | Unopenable => Uncaught UncaughtOSError
  end.

(** [save_to_file]: the text written to the output file when no write
    fails ([items] is the set in its iteration order). *)
Definition save_to_file (items : list string) : string :=
  foldl (λ written item, written +:+ line_of item) EmptyString (sorted items).
End files.

(** ** The library functions of CPython on a POSIX system *)

Module CPython.

Definition chr (n : nat) : ascii := ascii_of_nat n.
Definition ord (c : ascii) : nat := nat_of_ascii c.

Definition to_list (s : string) : list ascii := String.list_ascii_of_string s.
Definition of_list (l : list ascii) : string := String.string_of_list_ascii l.

(** *** [fnmatch.fnmatch]

    [fnmatch] is [fnmatchcase] on a POSIX system ([os.path.normcase] is the
    identity there): the pattern is translated to a regular expression
    that must match the whole name.  [*] becomes [.*], [?] becomes [.],
    [[stuff]] becomes a character set, a [[] that is never closed and
    every other character is a literal. *)

(** The text between [[] and its closing []]: an optional [!], an optional
    []], and everything up to the next []]. *)
Fixpoint until_close (p : list ascii) : option (list ascii) :=
  match p with
  | [] => None
  | c :: r =>
      if decide (c = "]"%char) then Some [] else cons c <$> until_close r
  end.

Definition take_if (c : ascii) (p : list ascii) : list ascii * list ascii :=
  match p with
  | a :: r => if decide (a = c) then ([a], r) else ([], p)
  | [] => ([], p)
  end.

Definition bracket (rest : list ascii) : option (list ascii) :=
  let '(bang, r1) := take_if "!"%char rest in
  let '(rb, r2) := take_if "]"%char r1 in
  s ← until_close r2; Some (bang ++ rb ++ s).

(** The chunks of [translate]: the text between the hyphens that stand
    for a range.  The first [protect] characters and the two characters
    after a range hyphen are not searched; a hyphen that ends the text
    joins the last chunk. *)
Fixpoint chunks (cur : list ascii) (protect : nat) (rest : list ascii)
  : list (list ascii) :=
  match rest with
  | [] => [cur]
  | c :: r =>
      match protect with
      | S k => chunks (cur ++ [c]) k r
      | O =>
          if decide (c = "-"%char) then
            match r with
            | [] => [cur ++ [c]]
            | _ => cur :: chunks [] 2 r
            end
          else chunks (cur ++ [c]) 0 r
      end
  end.

(** The removal of empty ranges, from the last chunk to the first. *)
Fixpoint merge_chunks (cs : list (list ascii)) : list (list ascii) :=
  match cs with
  | [] => []
  | c1 :: rest =>
      match merge_chunks rest with
      | [] => [c1]
      | c2 :: rest' =>
          match last c1, c2 with
          | Some lo, hi :: c2' =>
              if decide (ord hi < ord lo) then (removelast c1 ++ c2') :: rest'
              else c1 :: c2 :: rest'
          | _, _ => c1 :: c2 :: rest'
          end
      end
  end.

(** A character of the text of a regular-expression set, with whether it
    is escaped by a backslash. *)
Definition set_char : Type := bool * ascii.

Definition escape (specials : list ascii) (c : ascii) : set_char :=
  (bool_decide (c ∈ specials), c).

Fixpoint join_chunks (cs : list (list set_char)) : list set_char :=
  match cs with
  | [] => []
  | [c] => c
  | c :: rest => c ++ (false, "-"%char) :: join_chunks rest
  end.

(** The members of a regular-expression set: a character followed by an
    unescaped hyphen and another character is a range, anything else is
    itself. *)
Fixpoint set_mem (x : ascii) (s : list set_char) : bool :=
  match s with
  | [] => false
  | (e, a) :: rest =>
      match rest with
      | (false, h) :: (_, b) :: rest' =>
          if decide (h = "-"%char) then
            bool_decide (ord a ≤ ord x ≤ ord b) || set_mem x rest'
          else bool_decide (x = a) || set_mem x rest
      | _ => bool_decide (x = a) || set_mem x rest
      end
  end.

Inductive token : Type :=
| Star
| AnyChar
| Lit (c : ascii)
| Never
| CharSet (negated : bool) (s : list set_char).

(** The regular expression of [[stuff]]. *)
Definition translate_set (stuff : list ascii) : token :=
  let protect := match stuff with
                 | c :: _ => if decide (c = "!"%char) then 2 else 1
                 | [] => 1
                 end in
  let cs := merge_chunks (chunks [] protect stuff) in
  let specials := ["\"%char; "-"%char; "&"%char; "~"%char; "|"%char] in
  let body := join_chunks (map (map (escape specials)) cs) in
  match body with
  | [] => Never
  | (e, c) :: body' =>
      if decide (c = "!"%char) then
        match body' with
        | [] => AnyChar
        | _ => CharSet true body'
        end
      else if decide (c = "^"%char ∨ c = "["%char) then
        CharSet false ((true, c) :: body')
      else CharSet false body
  end.

(** [translate]: [skip] is the number of characters of a set still to be
    passed over. *)
Fixpoint translate (skip : nat) (pat : list ascii) : list token :=
  match pat with
  | [] => []
  | c :: rest =>
      match skip with
      | S k => translate k rest
      | O =>
          if decide (c = "*"%char) then Star :: translate 0 rest
          else if decide (c = "?"%char) then AnyChar :: translate 0 rest
          else if decide (c = "["%char) then
            match bracket rest with
            | Some stuff =>
                translate_set stuff :: translate (S (length stuff)) rest
            | None => Lit c :: translate 0 rest
            end
          else Lit c :: translate 0 rest
      end
  end.

(** A match of the whole name. *)
Fixpoint fullmatch (ts : list token) (name : list ascii) : bool :=
  match ts with
  | [] => bool_decide (name = [])
  | Star :: ts' =>
      (fix star (n : list ascii) : bool :=
         fullmatch ts' n ||
         match n with
         | [] => false
         | _ :: n' => star n'
         end) name
  | AnyChar :: ts' =>
      match name with
      | _ :: n' => fullmatch ts' n'
      | [] => false
      end
  | Lit c :: ts' =>
      match name with
      | a :: n' => bool_decide (a = c) && fullmatch ts' n'
      | [] => false
      end
  | Never :: _ => false
  | CharSet negated s :: ts' =>
      match name with
      | a :: n' => xorb negated (set_mem a s) && fullmatch ts' n'
      | [] => false
      end
  end.

Definition fnmatch (name pat : string) : bool :=
  fullmatch (translate 0 (to_list pat)) (to_list name).
End CPython.

Module CPythonStr.
Import CPython.

(** *** [str.lower] and [str.strip] on ASCII text *)

Definition lower_char (c : ascii) : ascii :=
  if decide (65 ≤ ord c ≤ 90) then chr (ord c + 32) else c.

Definition lower_list (l : list ascii) : list ascii := map lower_char l.

Definition str_lower (s : string) : string := of_list (lower_list (to_list s)).

(** The ASCII characters for which [isspace] holds: tab to carriage
    return, the four separators and the space. *)
Definition isspace (c : ascii) : bool :=
  bool_decide (9 ≤ ord c ≤ 13 ∨ 28 ≤ ord c ≤ 32).

Fixpoint lstrip (drop : ascii → bool) (l : list ascii) : list ascii :=
  match l with
  | c :: r => if drop c then lstrip drop r else l
  | [] => []
  end.

Definition rstrip (drop : ascii → bool) (l : list ascii) : list ascii :=
  reverse (lstrip drop (reverse l)).

Definition str_strip (s : string) : string :=
  of_list (rstrip isspace (lstrip isspace (to_list s))).

(** *** [urlparse(url).hostname]

    [urlsplit] as of CPython 3.11: leading C0 control characters and
    spaces are stripped, tabs and line breaks are removed, a scheme is
    split off, the network location is what follows [//] up to the first
    of [/], [?] and [#], and a network location with one square bracket and
    not the other raises [ValueError].  The two later checks of the
    network location (the address between brackets, the NFKC form of
    non-ASCII text) are not part of this model. *)

(** [s.partition(c)]: the text before the first [c], and the text after
    it when there is one. *)
Fixpoint partition (c : ascii) (l : list ascii)
  : list ascii * option (list ascii) :=
  match l with
  | [] => ([], None)
  | a :: r =>
      if decide (a = c) then ([], Some r)
      else let '(before, after) := partition c r in (a :: before, after)
  end.

(** The last component of [s.rpartition(c)]. *)
Fixpoint after_last (c : ascii) (l : list ascii) : list ascii :=
  match l with
  | [] => []
  | a :: r =>
      if bool_decide (a = c) && negb (bool_decide (c ∈ r)) then r
      else if bool_decide (c ∈ l) then after_last c r
      else l
  end.

Definition isalpha (c : ascii) : bool :=
  bool_decide (65 ≤ ord c ≤ 90 ∨ 97 ≤ ord c ≤ 122).

Definition isdigit (c : ascii) : bool := bool_decide (48 ≤ ord c ≤ 57).

(** [scheme_chars]: letters, digits and [+-.] *)
Definition scheme_char (c : ascii) : bool :=
  isalpha c || isdigit c
  || bool_decide (c = "+"%char ∨ c = "-"%char ∨ c = "."%char).

(** The URL after its scheme, when it has one. *)
Definition split_scheme (url : list ascii) : list ascii :=
  match partition ":"%char url with
  | (c :: before, Some rest) =>
      if isalpha c && forallb scheme_char (c :: before) then rest else url
  | _ => url
  end.

(** [_splitnetloc(url, 2)]: up to the first of [/], [?] and [#]. *)
Fixpoint splitnetloc (l : list ascii) : list ascii :=
  match l with
  | [] => []
  | c :: r =>
      if decide (c = "/"%char ∨ c = "?"%char ∨ c = "#"%char) then []
      else c :: splitnetloc r
  end.

Definition netloc (url : list ascii) : result (list ascii) :=
  let url := lstrip (λ c, bool_decide (ord c ≤ 32)) url in
  let url := filter (λ c, ¬ (ord c = 9 ∨ ord c = 10 ∨ ord c = 13)) url in
  match split_scheme url with
  | s1 :: s2 :: rest =>
      if decide (s1 = "/"%char ∧ s2 = "/"%char) then
        let nl := splitnetloc rest in
        if decide (("["%char ∈ nl ∧ "]"%char ∉ nl)
                   ∨ ("]"%char ∈ nl ∧ "["%char ∉ nl))
        then Raise ValueError
        else Ok nl
      else Ok []
  | _ => Ok []
  end.

(** The [hostname] property: the text after the last [@], between the
    brackets when there is one and up to the first colon otherwise,
    lower-cased up to a zone. *)
Definition hostname_of_netloc (nl : list ascii) : option string :=
  let hostinfo := after_last "@"%char nl in
  let hostname :=
    match partition "["%char hostinfo with
    | (_, Some bracketed) => (partition "]"%char bracketed).1
    | (_, None) => (partition ":"%char hostinfo).1
    end in
  match hostname with
  | [] => None
  | _ =>
      match partition "%"%char hostname with
      | (h, Some zone) => Some (of_list (lower_list h ++ "%"%char :: zone))
      | (h, None) => Some (of_list (lower_list h))
      end
  end.

Definition urlparse_hostname (url : string) : result (option string) :=
  nl ← netloc (to_list url); Ok (hostname_of_netloc nl).
End CPythonStr.

(** The runtime of the program: CPython's functions, and sets that iterate
    in the order of first insertion. *)
#[export] Instance cpython : Runtime := {|
  fnmatch := CPython.fnmatch;
  str_lower := CPythonStr.str_lower;
  str_strip := CPythonStr.str_strip;
  urlparse_hostname := CPythonStr.urlparse_hostname;
  set_order := remove_dups;
  set_order_NoDup := NoDup_remove_dups;
  set_order_elem_of := λ l x, elem_of_remove_dups l x;
|}.

(** ** What the loops decide for one item *)

Section verdicts.
Context `{RT : Runtime}.

(** The reason and the pattern with which [filter_subdomains] removes
    [subdomain]; [None] when it keeps it. *)
Definition subdomain_verdict (exact_matches : gset string)
    (wildcard_patterns : list string) (subdomain : string)
  : option (string * string) :=
  if decide (subdomain ∈ exact_matches) then Some ("exact match", subdomain)
  else
    match truthy (matches_wildcard subdomain wildcard_patterns) with
    | Some matched_pattern => Some ("wildcard match", matched_pattern)
    | None => None
    end.

Definition subdomain_record (exact_matches : gset string)
    (wildcard_patterns : list string) (subdomain : string) : option removal :=
  match subdomain_verdict exact_matches wildcard_patterns subdomain with
  | Some (reason, pattern) => Some (subdomain, reason, pattern)
  | None => None
  end.

(** The two sets of [filter_subdomains]. *)
Definition exact_of (out_of_scope : list string) : gset string :=
  list_to_set (filter (λ domain, has_star domain = false) out_of_scope).

Definition wildcards_of (out_of_scope : list string) : list string :=
  set_order (filter (λ domain, has_star domain = true) out_of_scope).

(** The subdomain column of the report. *)
Definition removed_subdomains (removed : list removal) : list string :=
  (λ r : removal, r.1.1) <$> removed.

(** The hostname [filter_urls] works with for [url]: [None] when the URL
    is skipped or [urlparse] raises. *)
Definition hostname_of (url : string) : option string :=
  match urlparse_hostname url with
  | Ok hostname => truthy hostname
  | Raise _ => None
  end.

(** The reason and the pattern with which the loop of [filter_urls]
    removes a URL of hostname [domain]; [None] when it keeps it. *)
Definition url_verdict (b : buckets) (domain url : string)
  : option (string * string) :=
  let full_url := str_lower url in
  if decide (full_url ∈ url_exact b) then Some ("exact URL match", full_url)
  else
    match truthy (matches_wildcard full_url (url_wildcards b)) with
    | Some matched_url_pattern =>
        Some ("wildcard URL match", matched_url_pattern)
    | None =>
        if decide (domain ∈ domain_exact b) then
          Some ("exact domain match", domain)
        else
          match truthy (matches_wildcard domain (domain_wildcards b)) with
          | Some matched_domain_pattern =>
              Some ("wildcard domain match", matched_domain_pattern)
          | None => None
          end
    end.

(** The hostname, the reason and the pattern of a removed URL. *)
Definition url_removal (b : buckets) (url : string)
  : option (string * string * string) :=
  match hostname_of url with
  | Some domain =>
      match url_verdict b domain url with
      | Some (reason, pattern) => Some (domain, reason, pattern)
      | None => None
      end
  | None => None
  end.

(** The hostname under which a removed URL is counted. *)
Definition removed_under (b : buckets) (url : string) : option string :=
  match url_removal b url with
  | Some (domain, _, _) => Some domain
  | None => None
  end.

(** Whether the loop adds the URL to [in_scope]. *)
Definition url_kept (b : buckets) (url : string) : bool :=
  match hostname_of url with
  | Some domain => bool_decide (url_verdict b domain url = None)
  | None => false
  end.

(** The removals recorded one after the other. *)
Definition tally (info : gmap string (nat * string * string))
    (removals : list (string * string * string))
  : gmap string (nat * string * string) :=
  foldl (λ m '(domain, reason, pattern),
           record_removal domain reason pattern m)
    info removals.

(** [info[domain][0]], zero for a missing key. *)
Definition count_of (info : gmap string (nat * string * string))
    (domain : string) : nat :=
  match info !! domain with
  | Some (count, _, _) => count
  | None => 0
  end.

(** [urlparse] returns on [url]. *)
Definition parses (url : string) : Prop :=
  ∃ hostname, urlparse_hostname url = Ok hostname.

(** The URLs removed under the hostname [domain], in iteration order. *)
Definition removals_under (b : buckets) (domain : string)
    (urls : list string) : list string :=
  filter (λ url, removed_under b url = Some domain) urls.

(** A URL-level reason. *)
Definition url_level (reason : string) : Prop :=
  reason = "exact URL match" ∨ reason = "wildcard URL match".

(** A pattern of the out-of-scope set begins with a URL scheme. *)
Definition is_url_pattern (pattern : string) : bool :=
  startswith "http://" pattern || startswith "https://" pattern.
End verdicts.

(** ** One run of the program *)

(** The lines of a text file, each with its newline. *)
Definition text_of_lines (items : list string) : string :=
  foldr (λ item text, line_of item +:+ text) EmptyString items.

(** [main] reads both files, filters in the mode chosen by [--urls] and
    saves the in-scope set: [run urls_mode input outscope in_scope text]
    holds when a run that reaches [save_to_file] has the in-scope set
    [in_scope] and writes [text].  [items] is the in-scope set in the order
    in which [sorted(items)] iterates over it. *)
Inductive run `{RT : Runtime} (input outscope : file)
  : bool → gset string → string → Prop :=
| run_subdomains (input_items out_of_scope items : list string) :
    load_file input = Returns input_items →
    load_file outscope = Returns out_of_scope →
    NoDup items →
    list_to_set items = (filter_subdomains input_items out_of_scope).1 →
    run input outscope false
      (filter_subdomains input_items out_of_scope).1 (save_to_file items)
| run_urls (input_items out_of_scope items : list string)
    (in_scope : gset string) (removed : gmap string (nat * string * string)) :
    load_file input = Returns input_items →
    load_file outscope = Returns out_of_scope →
    filter_urls input_items out_of_scope = Ok (in_scope, removed) →
    NoDup items →
    list_to_set items = in_scope →
    run input outscope true in_scope (save_to_file items).

(** ** The summary and the report of [main] *)

(** [sum(info[0] for info in removed_info.values())] *)
Definition total_removed (removed_info : gmap string (nat * string * string))
  : nat :=
  map_fold (λ _ info total, info.1.1 + total) 0 removed_info.

(** The lines the reading loops of [load_file] go through. *)
Definition lines_read (f : file) : list string :=
  match f with
  | Missing => []
  | Unopenable => []
  | Utf8 lines => lines
  | NotUtf8 read latin1 => read ++ latin1
  end.

(** The lines [for line in f] yields for the text of a file opened for
    reading: a line ends at a line feed, at a carriage return or at the
    two together, and is yielded with a single line feed at its end; a last
    line that has none is yielded as it is. *)
Fixpoint file_lines (text : string) : list string :=
  match text with
  | EmptyString => []
  | String c rest =>
      if decide (c = "010"%char) then newline :: file_lines rest
      else if decide (c = "013"%char) then
        match rest with
        | String c' rest' =>
            if decide (c' = "010"%char) then newline :: file_lines rest'
            else newline :: file_lines rest
        | EmptyString => [newline]
        end
      else
        match file_lines rest with
        | [] => [String c EmptyString]
        | line :: lines => String c line :: lines
        end
  end.

(** [c * n] for a one-character [c]. *)
Definition str_repeat (c : ascii) (n : nat) : string :=
  String.string_of_list_ascii (replicate n c).

(** The format [{s:<width}]: [s] padded with spaces on the right up to
    [width] characters, and [s] itself when it is longer. *)
Definition ljust (width : nat) (s : string) : string :=
  s +:+ str_repeat " "%char (width - String.length s).

(** One row of the subdomain table:
    [f"{domain:<40} {reason:<15} {pattern:<25}"]. *)
Definition subdomain_row (r : removal) : string :=
  let '(domain, reason, pattern) := r in
  ljust 40 domain +:+ " " +:+ ljust 15 reason +:+ " " +:+ ljust 25 pattern.

(** [print_subdomain_removal_info]: the arguments of the calls of [print],
    in order. *)
Definition print_subdomain_removal_info (removed_domains : list removal)
  : list string :=
  match removed_domains with
  | [] => [newline +:+ "No subdomains were removed."]
  | _ =>
      [newline +:+ "Removed Subdomains:";
       str_repeat "-"%char 80;
       subdomain_row ("Subdomain", "Reason", "Matched Pattern");
       str_repeat "-"%char 80]
      ++ (subdomain_row <$> removed_domains)
      ++ [str_repeat "-"%char 80]
  end.

Section summary.
Context `{RT : Runtime}.

(** The three numbers [main] prints after filtering: "Total items",
    "Out of scope removed" and "In scope items". *)
Definition summary (urls_mode : bool) (input_items out_of_scope : list string)
  : result (nat * nat * nat) :=
  if urls_mode then
    '(in_scope_items, removed_info) ← filter_urls input_items out_of_scope;
    Ok (length input_items, total_removed removed_info, size in_scope_items)
  else
    let '(in_scope_items, removed_info) :=
      filter_subdomains input_items out_of_scope in
    Ok (length input_items, length removed_info, size in_scope_items).

End summary.

(** * Properties *)

(** ** Facts about the primitives *)

Lemma has_star_nonempty (s : string) : has_star s = true → s ≠ EmptyString.
Proof. by intros H ->. Qed.

Lemma truthy_Some (v : option string) (s : string) :
  truthy v = Some s ↔ v = Some s ∧ s ≠ EmptyString.
Proof.
  destruct v as [[|a t]|]; simpl; split;
    first [ by intros [= <-] | by intros [[= <-] ?] | done | by intros [? ?] ].
Qed.

Lemma truthy_None (v : option string) :
  truthy v = None ↔ v = None ∨ v = Some EmptyString.
Proof.
  destruct v as [[|a t]|]; simpl; split;
    first [ by left | by right | by intros [?|?] | done ].
Qed.

Section matcher_facts.
Context `{RT : Runtime}.

Lemma matches_wildcard_Some item patterns p :
  matches_wildcard item patterns = Some p →
  p ∈ patterns ∧ fnmatch item p = true.
Proof.
  induction patterns as [|q patterns IH]; simpl; [done|].
  destruct (fnmatch item q) eqn:Hq.
  - intros [= <-]. split; [left | done].
  - intros H. destruct (IH H) as [? ?]. split; [by right | done].
Qed.

Lemma matches_wildcard_None item patterns :
  matches_wildcard item patterns = None ↔
  ∀ p, p ∈ patterns → fnmatch item p = false.
Proof.
  induction patterns as [|q patterns IH]; simpl.
  - split; [|done]. intros _ p Hp. by apply elem_of_nil in Hp.
  - destruct (fnmatch item q) eqn:Hq.
    + split; [done|]. intros H. specialize (H q (list_elem_of_here _ _)).
      congruence.
    + rewrite IH. split.
      * intros H p [->|Hp]%elem_of_cons; auto.
      * intros H p Hp. apply H. by right.
Qed.

(** Among patterns that are not empty, the matcher answers with a pattern
    exactly when some pattern matches. *)
Lemma truthy_matches_wildcard_None item patterns :
  (∀ p, p ∈ patterns → p ≠ EmptyString) →
  truthy (matches_wildcard item patterns) = None ↔
  ∀ p, p ∈ patterns → fnmatch item p = false.
Proof.
  intros Hne. rewrite truthy_None, <-matches_wildcard_None.
  split; [|by left]. intros [H|H]; [done|].
  apply matches_wildcard_Some in H as [H _]. by apply Hne in H.
Qed.

Lemma truthy_matches_wildcard_is_Some item patterns p :
  (∀ q, q ∈ patterns → q ≠ EmptyString) →
  p ∈ patterns → fnmatch item p = true →
  ∃ q, truthy (matches_wildcard item patterns) = Some q
       ∧ q ∈ patterns ∧ fnmatch item q = true.
Proof.
  intros Hne Hp Hm.
  destruct (truthy (matches_wildcard item patterns)) as [q|] eqn:Hq.
  - exists q. split; [done|].
    apply truthy_Some in Hq as [Hq _]. by apply matches_wildcard_Some.
  - pose proof (proj1 (truthy_matches_wildcard_None item patterns Hne) Hq)
      as Hall.
    rewrite (Hall p Hp) in Hm. done.
Qed.
End matcher_facts.

(** ** Subdomain mode *)

Section subdomain_facts.
Context `{RT : Runtime}.

Lemma elem_of_exact_of (O : list string) x :
  x ∈ exact_of O ↔ x ∈ O ∧ has_star x = false.
Proof.
  unfold exact_of. rewrite elem_of_list_to_set, list_elem_of_filter. tauto.
Qed.

Lemma elem_of_wildcards_of (O : list string) p :
  p ∈ wildcards_of O ↔ p ∈ O ∧ has_star p = true.
Proof.
  unfold wildcards_of. rewrite set_order_elem_of, list_elem_of_filter. tauto.
Qed.

Lemma wildcards_of_nonempty (O : list string) p :
  p ∈ wildcards_of O → p ≠ EmptyString.
Proof. intros [_ H]%elem_of_wildcards_of. by apply has_star_nonempty. Qed.

(** The loop body does what the verdict says. *)
Lemma subdomain_body_verdict e w (A : gset string) (R : list removal) x :
  subdomain_body e w (A, R) x =
  match subdomain_verdict e w x with
  | Some (reason, pattern) => (A, R ++ [(x, reason, pattern)])
  | None => ({[x]} ∪ A, R)
  end.
Proof.
  unfold subdomain_body, subdomain_verdict.
  destruct (decide (x ∈ e)); [done|].
  by destruct (truthy (matches_wildcard x w)).
Qed.

(** The loop in closed form, from any state. *)
Lemma subdomain_loop e w (S : list string) (A : gset string)
    (R : list removal) :
  foldl (subdomain_body e w) (A, R) S =
  (list_to_set (filter (λ x, subdomain_verdict e w x = None) S) ∪ A,
   R ++ omap (subdomain_record e w) S).
Proof.
  revert A R. induction S as [|x S IH]; intros A R; cbn [foldl].
  - rewrite filter_nil, list_to_set_nil, (left_id_L ∅ (∪)). simpl.
    by rewrite app_nil_r.
  - change (omap (subdomain_record e w) (x :: S)) with
      (match subdomain_record e w x with
       | Some y => y :: omap (subdomain_record e w) S
       | None => omap (subdomain_record e w) S
       end).
    rewrite subdomain_body_verdict, filter_cons. unfold subdomain_record at 1.
    destruct (subdomain_verdict e w x) as [[reason pattern]|] eqn:Hv.
    + rewrite decide_False by done. rewrite IH. by rewrite <-app_assoc.
    + rewrite decide_True by done. rewrite IH, list_to_set_cons.
      f_equal. rewrite (assoc_L (∪)). f_equal. apply (comm_L (∪)).
Qed.

Lemma filter_subdomains_closed (S O : list string) :
  filter_subdomains S O =
  (list_to_set
     (filter (λ x, subdomain_verdict (exact_of O) (wildcards_of O) x = None) S),
   omap (subdomain_record (exact_of O) (wildcards_of O)) S).
Proof.
  unfold filter_subdomains. fold (exact_of O) (wildcards_of O).
  rewrite subdomain_loop. f_equal. apply (right_id_L ∅ (∪)).
Qed.

Lemma elem_of_in_scope (S O : list string) x :
  x ∈ (filter_subdomains S O).1 ↔
  x ∈ S ∧ subdomain_verdict (exact_of O) (wildcards_of O) x = None.
Proof.
  rewrite filter_subdomains_closed. simpl.
  rewrite elem_of_list_to_set, list_elem_of_filter. tauto.
Qed.

Lemma elem_of_removed (S O : list string) x reason pattern :
  (x, reason, pattern) ∈ (filter_subdomains S O).2 ↔
  x ∈ S ∧
  subdomain_verdict (exact_of O) (wildcards_of O) x = Some (reason, pattern).
Proof.
  rewrite filter_subdomains_closed. simpl. rewrite list_elem_of_omap.
  unfold subdomain_record. split.
  - intros (y & Hy & Hrec).
    destruct (subdomain_verdict _ _ y) as [[r p]|] eqn:Hv; [|done].
    by injection Hrec as -> -> ->.
  - intros [Hx Hv]. exists x. by rewrite Hv.
Qed.

(** The subdomain column of the report lists, in order, the subdomains
    that are not kept. *)
Lemma removed_subdomains_filter (S O : list string) :
  removed_subdomains (filter_subdomains S O).2 =
  filter (λ x, subdomain_verdict (exact_of O) (wildcards_of O) x ≠ None) S.
Proof.
  rewrite filter_subdomains_closed. simpl.
  induction S as [|x S IH]; [done|].
  rewrite filter_cons.
  change (omap ?f (x :: S)) with
    (match f x with
     | Some y => y :: omap f S
     | None => omap f S
     end).
  unfold subdomain_record at 1.
  destruct (subdomain_verdict _ _ x) as [[r p]|] eqn:Hv.
  - rewrite decide_True by done. simpl. by rewrite <-IH.
  - rewrite decide_False by (by intros H; apply H). apply IH.
Qed.

(** The verdict "kept" does not depend on the order in which the
    out-of-scope set is iterated. *)
Lemma subdomain_verdict_None (O : list string) x :
  subdomain_verdict (exact_of O) (wildcards_of O) x = None ↔
  ¬ (x ∈ O ∧ has_star x = false) ∧
  ∀ p, p ∈ O → has_star p = true → fnmatch x p = false.
Proof.
  unfold subdomain_verdict.
  destruct (decide (x ∈ exact_of O)) as [He|He].
  - rewrite elem_of_exact_of in He. split; [done|]. by intros [? _].
  - rewrite elem_of_exact_of in He.
    destruct (truthy (matches_wildcard x (wildcards_of O))) as [p|] eqn:Hw.
    + split; [done|]. intros [_ Hall].
      apply truthy_Some in Hw as [Hw _].
      apply matches_wildcard_Some in Hw as [[Hp Hs]%elem_of_wildcards_of Hm].
      rewrite (Hall p Hp Hs) in Hm. done.
    + split; [|done]. intros _. split; [done|]. intros p Hp Hs.
      pose proof (proj1 (truthy_matches_wildcard_None x (wildcards_of O)
                           (wildcards_of_nonempty O)) Hw) as Hall.
      apply Hall. by apply elem_of_wildcards_of.
Qed.
End subdomain_facts.

Section subdomain_claims_support.
Context `{RT : Runtime}.

Lemma filter_length_one {A B : Type} `{EqDecision B} (f : A → B)
    (l : list A) y :
  NoDup (f <$> l) → y ∈ f <$> l →
  length (filter (λ a, f a = y) l) = 1.
Proof.
  induction l as [|a l IH]; rewrite ?fmap_cons.
  - by intros _ ?%elem_of_nil.
  - intros [Hnotin Hnd]%NoDup_cons Hy. rewrite filter_cons.
    destruct (decide (f a = y)) as [<-|Hne].
    + simpl. f_equal.
      destruct (filter (λ a0, f a0 = f a) l) as [|b t] eqn:Hf; [done|].
      exfalso. assert (Hb : b ∈ filter (λ a0, f a0 = f a) l).
      { rewrite Hf. left. }
      apply list_elem_of_filter in Hb as [Heq Hb].
      apply Hnotin. rewrite <-Heq. apply list_elem_of_fmap. by exists b.
    + apply IH; [done|]. apply elem_of_cons in Hy as [->|Hy]; done.
Qed.

(** A list of kept items goes through the loop unchanged. *)
Lemma all_kept_loop e w (ks : list string) :
  (∀ x, x ∈ ks → subdomain_verdict e w x = None) →
  filter (λ x, subdomain_verdict e w x = None) ks = ks
  ∧ omap (subdomain_record e w) ks = [].
Proof.
  induction ks as [|x ks IH]; intros Hall; [done|].
  destruct IH as [IH1 IH2].
  { intros y Hy. apply Hall. by right. }
  assert (Hx : subdomain_verdict e w x = None) by (apply Hall; left).
  split.
  - rewrite filter_cons, decide_True by done. by rewrite IH1.
  - change (omap ?f (x :: ks)) with
      (match f x with
       | Some y => y :: omap f ks
       | None => omap f ks
       end).
    unfold subdomain_record at 1. by rewrite Hx.
Qed.

Lemma filter_subdomains_again (S O O' ks : list string) :
  (∀ x, x ∈ O' ↔ x ∈ O) →
  list_to_set ks = (filter_subdomains S O).1 →
  filter_subdomains ks O' = ((filter_subdomains S O).1, []).
Proof.
  intros HO Hks.
  assert (Hall : ∀ x, x ∈ ks →
            subdomain_verdict (exact_of O') (wildcards_of O') x = None).
  { intros x Hx.
    assert (Hin : x ∈ (filter_subdomains S O).1).
    { rewrite <-Hks. by apply elem_of_list_to_set. }
    apply elem_of_in_scope in Hin as [_ Hv].
    apply subdomain_verdict_None in Hv as [Hex Hw].
    apply subdomain_verdict_None. split.
    - intros [Hx' Hs]. apply Hex. split; [by apply HO | done].
    - intros p Hp Hs. apply Hw; [by apply HO | done]. }
  apply all_kept_loop in Hall as [Hf Hr].
  rewrite (filter_subdomains_closed ks O'), Hf, Hr. by rewrite Hks.
Qed.
End subdomain_claims_support.

(** ** The claims on subdomain mode *)

(** C1, partition in subdomain mode: for every input set [S] (in any
    iteration order) and every out-of-scope set [O], the in-scope set
    together with the subdomains of the removal records is exactly [S], no
    subdomain is in both, and every removed subdomain has exactly one
    record. *)
Theorem subdomain_partition `{RT : Runtime} (S O : list string) :
  NoDup S →
  (filter_subdomains S O).1
    ∪ list_to_set (removed_subdomains (filter_subdomains S O).2)
  = list_to_set S
  ∧ (filter_subdomains S O).1
      ## list_to_set (removed_subdomains (filter_subdomains S O).2)
  ∧ ∀ x, x ∈ removed_subdomains (filter_subdomains S O).2 →
      length (filter (λ r : removal, r.1.1 = x) (filter_subdomains S O).2) = 1.
Proof.
  intros HS. split; [|split].
  - apply set_eq. intros x.
    rewrite elem_of_union, !elem_of_list_to_set, elem_of_in_scope,
      removed_subdomains_filter, list_elem_of_filter.
    destruct (decide (subdomain_verdict (exact_of O) (wildcards_of O) x = None));
      tauto.
  - apply elem_of_disjoint. intros x.
    rewrite elem_of_list_to_set, elem_of_in_scope, removed_subdomains_filter,
      list_elem_of_filter.
    tauto.
  - intros x Hx. apply (filter_length_one (λ r : removal, r.1.1)); [|done].
    fold (removed_subdomains (filter_subdomains S O).2).
    rewrite removed_subdomains_filter. by apply NoDup_filter.
Qed.

Lemma subdomain_partition_witness :
  let S := ["a.example.com"; "b.example.com"; "evil.com"] in
  let O := ["*.example.com"] in
  NoDup S
  ∧ (filter_subdomains S O).1
      ∪ list_to_set (removed_subdomains (filter_subdomains S O).2)
    = list_to_set S
  ∧ (filter_subdomains S O).1
      ## list_to_set (removed_subdomains (filter_subdomains S O).2)
  ∧ ∀ x, x ∈ removed_subdomains (filter_subdomains S O).2 →
      length (filter (λ r : removal, r.1.1 = x) (filter_subdomains S O).2) = 1.
Proof.
  assert (H : NoDup ["a.example.com"; "b.example.com"; "evil.com"])
    by compute_done.
  split; [exact H|].
  exact (subdomain_partition (RT:=cpython) _ ["*.example.com"] H).
Defined.

(** C2, as the code has it: an item that contains no [*] and is equal to an
    out-of-scope entry is removed with the reason "exact match" and itself
    as the pattern, and has no other record, whatever wildcard patterns it
    also matches. *)
Theorem exact_match_first `{RT : Runtime} (S O : list string) (x : string) :
  x ∈ S → x ∈ O → has_star x = false →
  (x ∉ (filter_subdomains S O).1)
  ∧ (x, "exact match", x) ∈ (filter_subdomains S O).2
  ∧ ∀ reason pattern, (x, reason, pattern) ∈ (filter_subdomains S O).2 →
      reason = "exact match" ∧ pattern = x.
Proof.
  intros HS HO Hstar.
  assert (Hv : subdomain_verdict (exact_of O) (wildcards_of O) x
               = Some ("exact match", x)).
  { unfold subdomain_verdict. rewrite decide_True; [done|].
    by apply elem_of_exact_of. }
  split; [|split].
  - rewrite elem_of_in_scope, Hv. by intros [_ ?].
  - by apply elem_of_removed.
  - intros reason pattern [_ Hv']%elem_of_removed.
    rewrite Hv in Hv'. by injection Hv' as <- <-.
Qed.

Lemma exact_match_first_witness :
  let S := ["api.example.com"] in
  let O := ["api.example.com"; "*.example.com"] in
  fnmatch "api.example.com" "*.example.com" = true
  ∧ ("api.example.com" ∉ (filter_subdomains S O).1)
  ∧ ("api.example.com", "exact match", "api.example.com")
      ∈ (filter_subdomains S O).2
  ∧ ∀ reason pattern,
      ("api.example.com", reason, pattern) ∈ (filter_subdomains S O).2 →
      reason = "exact match" ∧ pattern = "api.example.com".
Proof.
  split; [by vm_compute|].
  apply (exact_match_first (RT:=cpython) ["api.example.com"]
           ["api.example.com"; "*.example.com"] "api.example.com").
  - compute_done.
  - compute_done.
  - reflexivity.
Defined.

(** C2 as stated fails on an item that contains a [*]: the entry equal to it
    is a wildcard pattern, not an exact entry, and the item is removed with
    the reason "wildcard match". *)
Lemma exact_match_counterexample :
  let S := ["*.example.com"] in
  let O := ["*.example.com"] in
  "*.example.com" ∈ S ∧ "*.example.com" ∈ O
  ∧ (filter_subdomains S O).2
    = [("*.example.com", "wildcard match", "*.example.com")]
  ∧ ("*.example.com", "exact match", "*.example.com")
      ∉ (filter_subdomains S O).2.
Proof.
  assert (Hres : (filter_subdomains (RT:=cpython)
                    ["*.example.com"] ["*.example.com"]).2
                 = [("*.example.com", "wildcard match", "*.example.com")])
    by (vm_compute; reflexivity).
  cbv zeta. rewrite Hres.
  split; [left|]. split; [left|]. split; [done|].
  intros [[=]|[]%elem_of_nil]%elem_of_cons.
Qed.

(** C6, wildcard semantics: with the out-of-scope set [{"*.example.com"}],
    "api.example.com" is never in scope and is reported as a wildcard match
    when it is in the input, while "example.com" and "notexample.com" stay
    in scope when they are in the input. *)
Theorem wildcard_semantics (S : list string) :
  ("api.example.com" ∉ (filter_subdomains S ["*.example.com"]).1)
  ∧ (("api.example.com", "wildcard match", "*.example.com")
       ∈ (filter_subdomains S ["*.example.com"]).2
     ↔ "api.example.com" ∈ S)
  ∧ ("example.com" ∈ (filter_subdomains S ["*.example.com"]).1
     ↔ "example.com" ∈ S)
  ∧ ("notexample.com" ∈ (filter_subdomains S ["*.example.com"]).1
     ↔ "notexample.com" ∈ S).
Proof.
  assert (Hapi : subdomain_verdict (exact_of ["*.example.com"])
                   (wildcards_of ["*.example.com"]) "api.example.com"
                 = Some ("wildcard match", "*.example.com"))
    by (vm_compute; reflexivity).
  assert (Hapex : subdomain_verdict (exact_of ["*.example.com"])
                    (wildcards_of ["*.example.com"]) "example.com" = None)
    by (vm_compute; reflexivity).
  assert (Hnot : subdomain_verdict (exact_of ["*.example.com"])
                   (wildcards_of ["*.example.com"]) "notexample.com" = None)
    by (vm_compute; reflexivity).
  rewrite !elem_of_in_scope, elem_of_removed, Hapi, Hapex, Hnot.
  repeat split; try tauto; try done. by intros [_ ?].
Qed.

(** ** URL mode *)

Section url_facts.
Context `{RT : Runtime}.

(** *** The classification loop *)

Lemma classify_loop (O : list string) (b : buckets) x :
  let b' := foldl classify_body b O in
  (x ∈ domain_exact b' ↔
     x ∈ domain_exact b
     ∨ (x ∈ O ∧ is_url_pattern x = false ∧ has_star x = false))
  ∧ (x ∈ domain_wildcards b' ↔
     x ∈ domain_wildcards b
     ∨ (x ∈ O ∧ is_url_pattern x = false ∧ has_star x = true))
  ∧ (x ∈ url_exact b' ↔
     x ∈ url_exact b
     ∨ (x ∈ O ∧ is_url_pattern x = true ∧ has_star x = false))
  ∧ (x ∈ url_wildcards b' ↔
     x ∈ url_wildcards b
     ∨ (x ∈ O ∧ is_url_pattern x = true ∧ has_star x = true)).
Proof.
  revert b. induction O as [|y O IH]; intros b; cbn [foldl].
  - cbv zeta. rewrite !elem_of_nil. tauto.
  - specialize (IH (classify_body b y)). cbv zeta in IH |- *.
    destruct IH as (IH1 & IH2 & IH3 & IH4).
    rewrite IH1, IH2, IH3, IH4, !elem_of_cons. clear IH1 IH2 IH3 IH4.
    unfold classify_body. fold (is_url_pattern y).
    destruct (is_url_pattern y) eqn:Hu, (has_star y) eqn:Hs; simpl;
      rewrite ?elem_of_app, ?elem_of_union, ?elem_of_singleton,
        ?list_elem_of_singleton;
      repeat split; intros H;
      repeat match goal with
        | H : _ ∨ _ |- _ => destruct H
        | H : _ ∧ _ |- _ => destruct H
        end;
      subst; try congruence; auto 6.
Qed.

Lemma elem_of_url_exact (O : list string) x :
  x ∈ url_exact (classify O) ↔
  x ∈ O ∧ is_url_pattern x = true ∧ has_star x = false.
Proof.
  pose proof (classify_loop O (Buckets ∅ [] ∅ []) x) as (_ & _ & H & _).
  unfold classify. simpl in *. rewrite H. rewrite elem_of_empty. tauto.
Qed.

Lemma elem_of_domain_exact (O : list string) x :
  x ∈ domain_exact (classify O) ↔
  x ∈ O ∧ is_url_pattern x = false ∧ has_star x = false.
Proof.
  pose proof (classify_loop O (Buckets ∅ [] ∅ []) x) as (H & _ & _ & _).
  unfold classify. simpl in *. rewrite H. rewrite elem_of_empty. tauto.
Qed.

Lemma elem_of_url_wildcards (O : list string) x :
  x ∈ url_wildcards (classify O) ↔
  x ∈ O ∧ is_url_pattern x = true ∧ has_star x = true.
Proof.
  pose proof (classify_loop O (Buckets ∅ [] ∅ []) x) as (_ & _ & _ & H).
  unfold classify. simpl in *. rewrite set_order_elem_of, H, elem_of_nil.
  tauto.
Qed.

Lemma elem_of_domain_wildcards (O : list string) x :
  x ∈ domain_wildcards (classify O) ↔
  x ∈ O ∧ is_url_pattern x = false ∧ has_star x = true.
Proof.
  pose proof (classify_loop O (Buckets ∅ [] ∅ []) x) as (_ & H & _ & _).
  unfold classify. simpl in *. rewrite set_order_elem_of, H, elem_of_nil.
  tauto.
Qed.

Lemma url_wildcards_nonempty (O : list string) p :
  p ∈ url_wildcards (classify O) → p ≠ EmptyString.
Proof.
  intros (_ & _ & H)%elem_of_url_wildcards. by apply has_star_nonempty.
Qed.

Lemma domain_wildcards_nonempty (O : list string) p :
  p ∈ domain_wildcards (classify O) → p ≠ EmptyString.
Proof.
  intros (_ & _ & H)%elem_of_domain_wildcards. by apply has_star_nonempty.
Qed.

(** *** The loop over the URLs *)

(** The loop body does what the verdict says. *)
Lemma url_body_verdict b (A : gset string)
    (M : gmap string (nat * string * string)) url :
  url_body b (A, M) url =
  match urlparse_hostname url with
  | Raise e => Raise e
  | Ok hostname =>
      match truthy hostname with
      | None => Ok (A, M)
      | Some domain =>
          match url_verdict b domain url with
          | Some (reason, pattern) =>
              Ok (A, record_removal domain reason pattern M)
          | None => Ok ({[url]} ∪ A, M)
          end
      end
  end.
Proof.
  unfold url_body, url_verdict.
  destruct (urlparse_hostname url) as [hostname|e]; [|done]. simpl.
  destruct (truthy hostname) as [domain|]; [|done].
  destruct (decide (str_lower url ∈ url_exact b)); [done|].
  destruct (truthy (matches_wildcard (str_lower url) (url_wildcards b)));
    [done|].
  destruct (decide (domain ∈ domain_exact b)); [done|].
  by destruct (truthy (matches_wildcard domain (domain_wildcards b))).
Qed.

(** A URL on which [urlparse] returns is kept, removed or skipped. *)
Lemma url_body_parses b (A : gset string)
    (M : gmap string (nat * string * string)) url :
  parses url →
  url_body b (A, M) url =
  Ok (if url_kept b url then {[url]} ∪ A else A,
      match url_removal b url with
      | Some (domain, reason, pattern) =>
          record_removal domain reason pattern M
      | None => M
      end).
Proof.
  intros [hostname Hp]. rewrite url_body_verdict.
  unfold url_kept, url_removal, hostname_of. rewrite Hp.
  destruct (truthy hostname) as [domain|]; [|done].
  destruct (url_verdict b domain url) as [[reason pattern]|]; [done|].
  by rewrite bool_decide_eq_true_2.
Qed.

Lemma url_body_raises b st url e :
  urlparse_hostname url = Raise e → url_body b st url = Raise e.
Proof. intros H. destruct st as [A M]. by rewrite url_body_verdict, H. Qed.

Lemma omap_cons_eq {A B : Type} (f : A → option B) x l :
  omap f (x :: l) = match f x with
                    | Some y => y :: omap f l
                    | None => omap f l
                    end.
Proof. done. Qed.

(** The loop in closed form, from any state. *)
Lemma url_loop b (urls : list string) (A : gset string)
    (M : gmap string (nat * string * string)) :
  Forall parses urls →
  for_each (url_body b) (A, M) urls =
  Ok (list_to_set (filter (λ u, url_kept b u = true) urls) ∪ A,
      tally M (omap (url_removal b) urls)).
Proof.
  intros Hall. revert A M.
  induction Hall as [|x urls Hx Hall IH]; intros A M; cbn [for_each].
  - rewrite filter_nil, list_to_set_nil, (left_id_L ∅ (∪)). done.
  - rewrite url_body_parses by done. cbn [mbind result_bind]. rewrite IH.
    rewrite filter_cons, omap_cons_eq. unfold tally.
    destruct (url_kept b x) eqn:Hk.
    + assert (url_removal b x = None) as ->.
      { unfold url_kept, url_removal in *.
        destruct (hostname_of x); [|done].
        apply bool_decide_eq_true_1 in Hk. by rewrite Hk. }
      rewrite decide_True by done. rewrite list_to_set_cons.
      do 2 f_equal. rewrite (assoc_L (∪)). f_equal. apply (comm_L (∪)).
    + rewrite decide_False by done.
      by destruct (url_removal b x) as [[[d r] p]|].
Qed.

(** The loop stops with the exception of the first URL on which
    [urlparse] raises. *)
Lemma url_loop_raises b (urls : list string) st url :
  url ∈ urls → urlparse_hostname url = Raise ValueError →
  for_each (url_body b) st urls = Raise ValueError.
Proof.
  intros Hin Hr. revert st.
  induction urls as [|x urls IH]; intros st; [by apply elem_of_nil in Hin|].
  cbn [for_each].
  destruct (url_body b st x) as [st'|[]] eqn:Hb; [|done]. simpl.
  apply elem_of_cons in Hin as [->|Hin]; [|by apply IH].
  by rewrite (url_body_raises _ _ _ _ Hr) in Hb.
Qed.

Lemma url_loop_returns b (urls : list string) st st' :
  for_each (url_body b) st urls = Ok st' → Forall parses urls.
Proof.
  revert st. induction urls as [|x urls IH]; intros st; [by constructor|].
  cbn [for_each]. intros H.
  destruct (urlparse_hostname x) as [hostname|[]] eqn:Hp.
  - constructor; [by exists hostname|].
    destruct (url_body b st x) as [st1|e]; [|done]. by apply (IH st1).
  - by rewrite (url_body_raises _ _ _ _ Hp) in H.
Qed.

(** [filter_urls] returns exactly when [urlparse] returns on every URL,
    and then its result is the closed form of the loop. *)
Lemma filter_urls_returns (urls O : list string) :
  Forall parses urls →
  filter_urls urls O =
  Ok (list_to_set (filter (λ u, url_kept (classify O) u = true) urls),
      tally ∅ (omap (url_removal (classify O)) urls)).
Proof.
  intros Hall. unfold filter_urls. rewrite url_loop by done.
  by rewrite (right_id_L ∅ (∪)).
Qed.

Lemma filter_urls_closed (urls O : list string) in_scope removed :
  filter_urls urls O = Ok (in_scope, removed) →
  Forall parses urls
  ∧ in_scope = list_to_set (filter (λ u, url_kept (classify O) u = true) urls)
  ∧ removed = tally ∅ (omap (url_removal (classify O)) urls).
Proof.
  intros H. assert (Hall : Forall parses urls).
  { by apply (url_loop_returns (classify O) urls (∅, ∅) (in_scope, removed)). }
  rewrite filter_urls_returns in H by done. by injection H as <- <-.
Qed.
End url_facts.

(** *** The removal mapping *)

Section tally_facts.
Context `{RT : Runtime}.

Lemma lookup_record_removal d r p (M : gmap string (nat * string * string)) d' :
  record_removal d r p M !! d' =
  if decide (d = d') then
    match M !! d with
    | Some (c, r0, p0) => Some (c + 1, r0, p0)
    | None => Some (1, r, p)
    end
  else M !! d'.
Proof.
  unfold record_removal. rewrite lookup_alter.
  destruct (decide (d = d')) as [<-|Hne].
  - destruct (M !! d) as [[[c r0] p0]|] eqn:HM; cbn beta iota.
    + by rewrite HM.
    + by rewrite lookup_insert_eq.
  - destruct (M !! d); cbn beta iota; [done|]. by rewrite lookup_insert_ne.
Qed.

(** The entry of a hostname after the loop: its count has grown by the
    number of URLs removed under it, and its reason and pattern are the
    ones it had or, for a new entry, those of the first such URL. *)
Lemma tally_lookup b (urls : list string)
    (M : gmap string (nat * string * string)) d :
  tally M (omap (url_removal b) urls) !! d =
  match M !! d with
  | Some (c, r, p) => Some (c + length (removals_under b d urls), r, p)
  | None =>
      match removals_under b d urls with
      | [] => None
      | u :: rest =>
          match url_removal b u with
          | Some (_, r, p) => Some (S (length rest), r, p)
          | None => None
          end
      end
  end.
Proof.
  revert M. induction urls as [|x urls IH]; intros M.
  - simpl. destruct (M !! d) as [[[c r] p]|]; [|done].
    by rewrite Nat.add_0_r.
  - rewrite omap_cons_eq. unfold removals_under. rewrite filter_cons.
    fold (removals_under b d urls).
    destruct (url_removal b x) as [[[dx rx] px]|] eqn:Hx.
    + assert (Hru : removed_under b x = Some dx).
      { unfold removed_under. by rewrite Hx. }
      unfold tally. cbn [foldl].
      fold (tally (record_removal dx rx px M) (omap (url_removal b) urls)).
      rewrite IH, lookup_record_removal.
      destruct (decide (dx = d)) as [->|Hne].
      * rewrite decide_True by done.
        destruct (M !! d) as [[[c r] p]|].
        -- simpl. do 3 f_equal. lia.
        -- rewrite Hx. simpl. done.
      * rewrite decide_False by congruence. done.
    + assert (Hru : removed_under b x = None).
      { unfold removed_under. by rewrite Hx. }
      rewrite decide_False by congruence. apply IH.
Qed.

Lemma filter_head_split {A : Type} (P : A → Prop) `{∀ x, Decision (P x)}
    (l : list A) u rest :
  filter P l = u :: rest →
  ∃ before after,
    l = before ++ u :: after
    ∧ (∀ v, v ∈ before → ¬ P v) ∧ P u ∧ filter P after = rest.
Proof.
  induction l as [|x l IH]; [done|]. rewrite filter_cons.
  destruct (decide (P x)) as [Hx|Hx].
  - intros [= -> <-]. exists [], l. split; [done|].
    split; [by intros v ?%elem_of_nil|done].
  - intros (before & after & -> & Hb & Hu & Ha)%IH.
    exists (x :: before), after. split; [done|]. split; [|done].
    intros v [->|Hv]%elem_of_cons; auto.
Qed.

Lemma filter_first {A : Type} (P : A → Prop) `{∀ x, Decision (P x)}
    (before after : list A) u :
  (∀ v, v ∈ before → ¬ P v) → P u →
  filter P (before ++ u :: after) = u :: filter P after.
Proof.
  intros Hb Hu. rewrite filter_app, filter_cons_True by done.
  assert (filter P before = []) as ->; [|done].
  induction before as [|x before IH]; [done|].
  rewrite filter_cons_False; [|apply Hb; left].
  apply IH. intros v Hv. apply Hb. by right.
Qed.

Lemma removed_under_Some b url d :
  removed_under b url = Some d ↔
  ∃ reason pattern, url_removal b url = Some (d, reason, pattern).
Proof.
  unfold removed_under.
  destruct (url_removal b url) as [[[d' r] p]|]; split.
  - intros [= ->]. by exists r, p.
  - by intros (r' & p' & [= -> _ _]).
  - done.
  - by intros (? & ? & ?).
Qed.

(** The first URL removed under a hostname fixes the stored reason and
    pattern; every URL removed under it is counted. *)
Lemma first_removal_recorded (urls O : list string) in_scope removed
    before u after d reason pattern :
  filter_urls urls O = Ok (in_scope, removed) →
  urls = before ++ u :: after →
  (∀ v, v ∈ before → removed_under (classify O) v ≠ Some d) →
  url_removal (classify O) u = Some (d, reason, pattern) →
  removed !! d
  = Some (S (length (removals_under (classify O) d after)), reason, pattern).
Proof.
  intros (_ & _ & ->)%filter_urls_closed -> Hb Hu.
  rewrite tally_lookup, lookup_empty. unfold removals_under.
  rewrite filter_first; [by rewrite Hu|done|].
  apply removed_under_Some. by exists reason, pattern.
Qed.
End tally_facts.

(** ** The claims on URL mode *)

(** C4, aggregation in URL mode: for every hostname in the removal mapping
    that [filter_urls] returns, the stored reason and pattern are those of
    the first URL, in iteration order, removed under that hostname, and the
    count is one more than the number of later URLs removed under it,
    whatever rule removed them. *)
Theorem first_removal_wins `{RT : Runtime} (urls O : list string)
    (in_scope : gset string) (removed : gmap string (nat * string * string))
    (d : string) (count : nat) (reason pattern : string) :
  filter_urls urls O = Ok (in_scope, removed) →
  removed !! d = Some (count, reason, pattern) →
  ∃ before u after,
    urls = before ++ u :: after
    ∧ (∀ v, v ∈ before → removed_under (classify O) v ≠ Some d)
    ∧ url_removal (classify O) u = Some (d, reason, pattern)
    ∧ count = S (length (removals_under (classify O) d after)).
Proof.
  intros Hf Hlook.
  pose proof Hf as (_ & _ & ->)%filter_urls_closed.
  rewrite tally_lookup, lookup_empty in Hlook.
  destruct (removals_under (classify O) d urls) as [|u rest] eqn:Hr; [done|].
  apply filter_head_split in Hr as (before & after & -> & Hb & Hu & <-).
  exists before, u, after. split; [done|]. split; [done|].
  apply removed_under_Some in Hu as (r & p & Hu).
  rewrite Hu in Hlook. injection Hlook as <- <- <-. done.
Qed.

Section url_verdict_facts.
Context `{RT : Runtime}.

Lemma hostname_of_parses url d : hostname_of url = Some d → parses url.
Proof.
  unfold hostname_of, parses.
  destruct (urlparse_hostname url) as [h|e]; [by exists h|done].
Qed.

(** The exact-URL rule stores the lower-cased URL, which is then an
    element of [url_exact]. *)
Lemma url_verdict_exact b d url p :
  url_verdict b d url = Some ("exact URL match", p) →
  p = str_lower url ∧ str_lower url ∈ url_exact b.
Proof.
  unfold url_verdict.
  destruct (decide (str_lower url ∈ url_exact b)); [by intros [= <-]|].
  destruct (truthy (matches_wildcard (str_lower url) (url_wildcards b)));
    [done|].
  destruct (decide (d ∈ domain_exact b)); [done|].
  by destruct (truthy (matches_wildcard d (domain_wildcards b))).
Qed.

(** A URL that matches a full-URL wildcard pattern is removed by one of
    the two URL rules, whatever its hostname matches. *)
Lemma url_verdict_url_wildcard (O : list string) d url p :
  p ∈ url_wildcards (classify O) → fnmatch (str_lower url) p = true →
  ∃ reason pattern,
    url_verdict (classify O) d url = Some (reason, pattern)
    ∧ url_level reason.
Proof.
  intros Hp Hm. unfold url_verdict.
  destruct (decide (str_lower url ∈ url_exact (classify O))).
  - eexists _, _. split; [done|by left].
  - destruct (truthy_matches_wildcard_is_Some (str_lower url)
                (url_wildcards (classify O)) p
                (url_wildcards_nonempty O) Hp Hm) as (q & -> & _).
    eexists _, _. split; [done|by right].
Qed.

(** The verdict "kept" depends on the out-of-scope set only through its
    elements. *)
Lemma url_verdict_None (O : list string) d url :
  url_verdict (classify O) d url = None ↔
  ¬ (str_lower url ∈ O ∧ is_url_pattern (str_lower url) = true
     ∧ has_star (str_lower url) = false)
  ∧ (∀ p, p ∈ O → is_url_pattern p = true → has_star p = true →
       fnmatch (str_lower url) p = false)
  ∧ ¬ (d ∈ O ∧ is_url_pattern d = false ∧ has_star d = false)
  ∧ (∀ p, p ∈ O → is_url_pattern p = false → has_star p = true →
       fnmatch d p = false).
Proof.
  unfold url_verdict.
  destruct (decide (str_lower url ∈ url_exact (classify O))) as [He|He];
    rewrite elem_of_url_exact in He.
  { split; [done|]. by intros [? _]. }
  destruct (truthy (matches_wildcard (str_lower url)
                      (url_wildcards (classify O)))) as [q|] eqn:Hq.
  { split; [done|]. intros (_ & Hall & _). exfalso.
    apply truthy_Some in Hq as [Hq _].
    apply matches_wildcard_Some in Hq
      as [(Hq1 & Hq2 & Hq3)%elem_of_url_wildcards Hm].
    rewrite (Hall q Hq1 Hq2 Hq3) in Hm. done. }
  pose proof (proj1 (truthy_matches_wildcard_None _ _
                       (url_wildcards_nonempty O)) Hq) as Hu.
  destruct (decide (d ∈ domain_exact (classify O))) as [Hd|Hd];
    rewrite elem_of_domain_exact in Hd.
  { split; [done|]. by intros (_ & _ & ? & _). }
  destruct (truthy (matches_wildcard d (domain_wildcards (classify O))))
    as [q|] eqn:Hq'.
  { split; [done|]. intros (_ & _ & _ & Hall). exfalso.
    apply truthy_Some in Hq' as [Hq' _].
    apply matches_wildcard_Some in Hq'
      as [(Hq1 & Hq2 & Hq3)%elem_of_domain_wildcards Hm].
    rewrite (Hall q Hq1 Hq2 Hq3) in Hm. done. }
  pose proof (proj1 (truthy_matches_wildcard_None _ _
                       (domain_wildcards_nonempty O)) Hq') as Hdw.
  split; [|done]. intros _. split; [done|]. split; [|split; [done|]].
  - intros p H1 H2 H3. apply Hu. by apply elem_of_url_wildcards.
  - intros p H1 H2 H3. apply Hdw. by apply elem_of_domain_wildcards.
Qed.

Lemma url_kept_true b url :
  url_kept b url = true ↔
  ∃ d, hostname_of url = Some d ∧ url_verdict b d url = None.
Proof.
  unfold url_kept. destruct (hostname_of url) as [d|].
  - rewrite bool_decide_eq_true. split; [by exists d|].
    by intros (? & [= <-] & ?).
  - split; [done|]. by intros (? & ? & ?).
Qed.

Lemma url_kept_not_removed b url :
  url_kept b url = true → url_removal b url = None.
Proof.
  intros (d & Hd & Hv)%url_kept_true. unfold url_removal. by rewrite Hd, Hv.
Qed.

(** A list of kept URLs goes through the loop unchanged. *)
Lemma all_kept_url_loop b (ks : list string) :
  (∀ x, x ∈ ks → url_kept b x = true) →
  Forall parses ks
  ∧ filter (λ u, url_kept b u = true) ks = ks
  ∧ omap (url_removal b) ks = [].
Proof.
  induction ks as [|x ks IH]; intros Hall.
  - split; [by constructor|done].
  - destruct IH as (IH1 & IH2 & IH3).
    { intros y Hy. apply Hall. by right. }
    assert (Hx : url_kept b x = true) by (apply Hall; left).
    split; [|split].
    + constructor; [|done].
      apply url_kept_true in Hx as (d & Hd & _).
      by apply (hostname_of_parses x d).
    + rewrite filter_cons, decide_True by done. by rewrite IH2.
    + rewrite omap_cons_eq, url_kept_not_removed by done. done.
Qed.

Lemma filter_urls_again (S O O' ks : list string) K R :
  (∀ x, x ∈ O' ↔ x ∈ O) →
  filter_urls S O = Ok (K, R) →
  list_to_set ks = K →
  filter_urls ks O' = Ok (K, ∅).
Proof.
  intros HO (_ & HK & _)%filter_urls_closed Hks.
  assert (Hall : ∀ x, x ∈ ks → url_kept (classify O') x = true).
  { intros x Hx.
    assert (Hin : x ∈ K) by (rewrite <-Hks; by apply elem_of_list_to_set).
    rewrite HK, elem_of_list_to_set, list_elem_of_filter in Hin.
    destruct Hin as [(d & Hd & Hv)%url_kept_true _].
    apply url_kept_true. exists d. split; [done|].
    apply url_verdict_None in Hv as (H1 & H2 & H3 & H4).
    apply url_verdict_None. repeat split.
    - intros (? & ? & ?). apply H1. rewrite <-HO. done.
    - intros p Hp. apply H2. by apply HO.
    - intros (? & ? & ?). apply H3. rewrite <-HO. done.
    - intros p Hp. apply H4. by apply HO. }
  apply all_kept_url_loop in Hall as (Hp & Hf & Hr).
  rewrite filter_urls_returns by done. by rewrite Hf, Hr, Hks.
Qed.

(** On a run that returns, a URL without a hostname is in neither
    output, a URL with a hostname is either in scope or counted once under
    its hostname, and nothing else is counted. *)
Lemma url_accounting (urls O : list string) in_scope removed :
  filter_urls urls O = Ok (in_scope, removed) →
  (∀ u, u ∈ in_scope ↔ u ∈ urls ∧ url_kept (classify O) u = true)
  ∧ (∀ u, hostname_of u = None →
       (u ∉ in_scope) ∧ removed_under (classify O) u = None)
  ∧ (∀ u d, u ∈ urls → hostname_of u = Some d →
       (u ∈ in_scope ∧ removed_under (classify O) u = None)
       ∨ ((u ∉ in_scope) ∧ removed_under (classify O) u = Some d))
  ∧ (∀ d, count_of removed d = length (removals_under (classify O) d urls)).
Proof.
  intros (_ & -> & ->)%filter_urls_closed.
  assert (Hin : ∀ u, u ∈ (list_to_set (filter (λ u, url_kept (classify O) u
                            = true) urls) : gset string)
                ↔ u ∈ urls ∧ url_kept (classify O) u = true).
  { intros u. rewrite elem_of_list_to_set, list_elem_of_filter. tauto. }
  split; [done|]. split; [|split].
  - intros u Hu. rewrite Hin. unfold url_kept, removed_under, url_removal.
    rewrite Hu. split; [by intros [_ ?]|done].
  - intros u d Hu Hd. rewrite Hin. unfold url_kept, removed_under, url_removal.
    rewrite Hd.
    destruct (url_verdict (classify O) d u) as [[r p]|] eqn:Hv.
    + right. split; [|done]. by intros [_ ?%bool_decide_eq_true].
    + left. split; [|done]. split; [done|]. by apply bool_decide_eq_true.
  - intros d. unfold count_of. rewrite tally_lookup, lookup_empty.
    destruct (removals_under (classify O) d urls) as [|u rest] eqn:Hr;
      [done|].
    assert (Hu : removed_under (classify O) u = Some d).
    { apply (filter_head_split _ urls u rest) in Hr
        as (? & ? & _ & _ & Hu & _). done. }
    apply removed_under_Some in Hu as (r & p & ->). done.
Qed.
End url_verdict_facts.

Lemma first_removal_wins_witness :
  let urls := ["http://a.example.com/a"; "http://a.example.com/x"] in
  let O := ["http://a.example.com/x*"; "a.example.com"] in
  let removed : gmap string (nat * string * string) :=
    {[ "a.example.com" := (2, "exact domain match", "a.example.com") ]} in
  filter_urls urls O = Ok (∅, removed)
  ∧ ∃ before u after,
      urls = before ++ u :: after
      ∧ (∀ v, v ∈ before → removed_under (classify O) v ≠ Some "a.example.com")
      ∧ url_removal (classify O) u
        = Some ("a.example.com", "exact domain match", "a.example.com")
      ∧ 2 = S (length (removals_under (classify O) "a.example.com" after)).
Proof.
  cbv zeta.
  assert (Hf : filter_urls (RT:=cpython)
                 ["http://a.example.com/a"; "http://a.example.com/x"]
                 ["http://a.example.com/x*"; "a.example.com"]
               = Ok (∅, {[ "a.example.com"
                           := (2, "exact domain match", "a.example.com") ]}))
    by (vm_compute; reflexivity).
  split; [exact Hf|].
  exact (first_removal_wins _ _ _ _ "a.example.com" 2 "exact domain match"
           "a.example.com" Hf eq_refl).
Defined.

(** C3, as the code has it: a URL whose lower-cased string glob-matches a
    full-URL wildcard pattern and whose hostname matches a domain pattern,
    exactly or by wildcard, is removed by one of the two URL rules, never by
    a domain rule, whatever happened to earlier URLs; the reason recorded
    for its hostname is that URL-level reason when no URL iterated before it
    was removed under the same hostname. *)
Theorem url_rule_precedence `{RT : Runtime} (urls O : list string)
    (in_scope : gset string) (removed : gmap string (nat * string * string))
    (before : list string) (u : string) (after : list string)
    (d p q : string) :
  filter_urls urls O = Ok (in_scope, removed) →
  urls = before ++ u :: after →
  hostname_of u = Some d →
  p ∈ O → is_url_pattern p = true → has_star p = true →
  fnmatch (str_lower u) p = true →
  q ∈ O → is_url_pattern q = false →
  (has_star q = false ∧ q = d) ∨ (has_star q = true ∧ fnmatch d q = true) →
  ∃ reason pattern,
    url_removal (classify O) u = Some (d, reason, pattern)
    ∧ url_level reason
    ∧ ((∀ v, v ∈ before → removed_under (classify O) v ≠ Some d) →
       ∃ count, removed !! d = Some (count, reason, pattern)).
Proof.
  intros Hf Hurls Hd Hp Hurl Hstar Hm _ _ _.
  destruct (url_verdict_url_wildcard O d u p) as (reason & pattern & Hv & Hl);
    [by apply elem_of_url_wildcards|done|].
  assert (Hrem : url_removal (classify O) u = Some (d, reason, pattern)).
  { unfold url_removal. by rewrite Hd, Hv. }
  exists reason, pattern. split; [done|]. split; [done|].
  intros Hb. eexists.
  by apply (first_removal_recorded urls O in_scope removed before u after).
Qed.

Lemma url_rule_precedence_witness :
  let urls := ["http://c.example.net/k"; "http://b.example.org/k";
               "http://a.example.com/x"; "http://a.example.com/a"] in
  let O := ["http://a.example.com/x*"; "a.example.com"; "b.example.org"] in
  let removed : gmap string (nat * string * string) :=
    {[ "a.example.com" := (2, "wildcard URL match", "http://a.example.com/x*");
       "b.example.org" := (1, "exact domain match", "b.example.org") ]}
  in
  filter_urls urls O = Ok ({[ "http://c.example.net/k" ]}, removed)
  ∧ (∀ v, v ∈ ["http://c.example.net/k"; "http://b.example.org/k"] →
       removed_under (classify O) v ≠ Some "a.example.com")
  ∧ url_removal (classify O) "http://a.example.com/x"
    = Some ("a.example.com", "wildcard URL match", "http://a.example.com/x*")
  ∧ ∃ reason pattern,
      url_removal (classify O) "http://a.example.com/x"
      = Some ("a.example.com", reason, pattern)
      ∧ url_level reason
      ∧ ((∀ v, v ∈ ["http://c.example.net/k"; "http://b.example.org/k"] →
            removed_under (classify O) v ≠ Some "a.example.com") →
         ∃ count, removed !! "a.example.com" = Some (count, reason, pattern)).
Proof.
  cbv zeta.
  assert (Hf : filter_urls (RT:=cpython)
                 ["http://c.example.net/k"; "http://b.example.org/k";
                  "http://a.example.com/x"; "http://a.example.com/a"]
                 ["http://a.example.com/x*"; "a.example.com"; "b.example.org"]
               = Ok ({[ "http://c.example.net/k" ]},
                     {[ "a.example.com"
                        := (2, "wildcard URL match", "http://a.example.com/x*");
                        "b.example.org"
                        := (1, "exact domain match", "b.example.org") ]}))
    by (vm_compute; reflexivity).
  split; [exact Hf|]. split.
  { intros v [ ->|[ ->|[]%elem_of_nil]%elem_of_cons]%elem_of_cons;
      vm_compute; discriminate. }
  split; [vm_compute; reflexivity|].
  apply (url_rule_precedence _ _ _ _
           ["http://c.example.net/k"; "http://b.example.org/k"]
           "http://a.example.com/x" ["http://a.example.com/a"]
           "a.example.com" "http://a.example.com/x*" "a.example.com"
           Hf eq_refl).
  - vm_compute. reflexivity.
  - compute_done.
  - reflexivity.
  - reflexivity.
  - vm_compute. reflexivity.
  - compute_done.
  - reflexivity.
  - left. split; reflexivity.
Defined.

(** C3 as stated fails when an earlier URL of the same hostname was removed
    by a domain rule: the second URL below matches a full-URL wildcard
    pattern and its hostname is an exact domain entry, and the reason
    recorded for the hostname is "exact domain match". *)
Lemma url_rule_precedence_counterexample :
  let urls := ["http://a.example.com/a"; "http://a.example.com/x"] in
  let O := ["http://a.example.com/x*"; "a.example.com"] in
  fnmatch (str_lower "http://a.example.com/x") "http://a.example.com/x*" = true
  ∧ hostname_of "http://a.example.com/x" = Some "a.example.com"
  ∧ "a.example.com" ∈ domain_exact (classify O)
  ∧ filter_urls urls O
    = Ok (∅, {[ "a.example.com"
                := (2, "exact domain match", "a.example.com") ]})
  ∧ ¬ url_level "exact domain match".
Proof.
  cbv zeta. split; [by vm_compute|]. split; [by vm_compute|].
  split; [compute_done|]. split; [by vm_compute|].
  by intros [?|?].
Qed.

(** C10, as the code has it: when the first URL removed under a hostname is
    removed by the exact-URL rule, the pattern stored for the hostname is
    the lower-cased string of that URL; later URLs of the hostname leave it
    in place. *)
Theorem exact_url_pattern_stored `{RT : Runtime} (urls O : list string)
    (in_scope : gset string) (removed : gmap string (nat * string * string))
    (before : list string) (u : string) (after : list string) (d p : string) :
  filter_urls urls O = Ok (in_scope, removed) →
  urls = before ++ u :: after →
  (∀ v, v ∈ before → removed_under (classify O) v ≠ Some d) →
  url_removal (classify O) u = Some (d, "exact URL match", p) →
  p = str_lower u
  ∧ ∃ count, removed !! d = Some (count, "exact URL match", str_lower u).
Proof.
  intros Hf Hurls Hb Hu.
  assert (Hp : p = str_lower u).
  { unfold url_removal in Hu. destruct (hostname_of u) as [d'|]; [|done].
    destruct (url_verdict (classify O) d' u) as [[r q]|] eqn:Hv; [|done].
    injection Hu as -> -> ->.
    by apply url_verdict_exact in Hv as [? _]. }
  subst p. split; [done|]. eexists.
  by apply (first_removal_recorded urls O in_scope removed before u after).
Qed.

Lemma exact_url_pattern_stored_witness :
  let urls := ["http://b.com/k"; "http://A.com/X"; "http://a.com/y"] in
  let O := ["http://a.com/x"; "a.com"; "b.com"] in
  let removed : gmap string (nat * string * string) :=
    {[ "a.com" := (2, "exact URL match", "http://a.com/x");
       "b.com" := (1, "exact domain match", "b.com") ]} in
  filter_urls urls O = Ok (∅, removed)
  ∧ "http://a.com/x" = str_lower "http://A.com/X"
  ∧ ∃ count,
      removed !! "a.com"
      = Some (count, "exact URL match", str_lower "http://A.com/X").
Proof.
  cbv zeta.
  assert (Hf : filter_urls (RT:=cpython)
                 ["http://b.com/k"; "http://A.com/X"; "http://a.com/y"]
                 ["http://a.com/x"; "a.com"; "b.com"]
               = Ok (∅, {[ "a.com" := (2, "exact URL match", "http://a.com/x");
                           "b.com" := (1, "exact domain match", "b.com") ]}))
    by (vm_compute; reflexivity).
  split; [exact Hf|].
  apply (exact_url_pattern_stored _ _ _ _ ["http://b.com/k"] "http://A.com/X"
           ["http://a.com/y"] "a.com" "http://a.com/x" Hf eq_refl).
  - intros v [ ->|[]%elem_of_nil]%elem_of_cons. vm_compute. discriminate.
  - vm_compute. reflexivity.
Defined.

(** C10 as stated fails for a URL that is not the first one removed under
    its hostname: the second URL below is removed by the exact-URL rule, and
    the pattern stored for its hostname is the first URL, not its own
    lower-cased string. *)
Lemma exact_url_pattern_counterexample :
  let urls := ["http://a.com/x"; "http://a.com/y"] in
  let O := ["http://a.com/x"; "http://a.com/y"] in
  url_removal (classify O) "http://a.com/y"
  = Some ("a.com", "exact URL match", "http://a.com/y")
  ∧ filter_urls urls O
    = Ok (∅, {[ "a.com" := (2, "exact URL match", "http://a.com/x") ]})
  ∧ str_lower "http://a.com/y" ≠ "http://a.com/x".
Proof.
  cbv zeta. split; [by vm_compute|]. split; [by vm_compute|].
  by vm_compute.
Qed.

(** C5 on the code: the out-of-scope entry "http://Example.com/A" starts
    with a scheme and has no [*], it enters [url_exact] as it is written,
    and the URL "http://example.com/a", whose lower-casing equals the
    lower-casing of the entry, stays in scope. *)
Theorem url_exact_keeps_case :
  let url := "http://example.com/a" in
  let entry := "http://Example.com/A" in
  is_url_pattern entry = true
  ∧ has_star entry = false
  ∧ str_lower url = str_lower entry
  ∧ url_exact (classify [entry]) = {[ entry ]}
  ∧ filter_urls [url] [entry] = Ok ({[ url ]}, ∅).
Proof.
  cbv zeta. repeat split; vm_compute; reflexivity.
Qed.

(** C8 on the code: [urlparse] raises [ValueError] on "http://[", the loop
    does not catch it, and the run ends without an in-scope set and
    without a removal mapping, also for the URL that has a hostname. *)
Theorem unparseable_url_aborts :
  urlparse_hostname "http://[" = Raise ValueError
  ∧ hostname_of "http://good.com/" = Some "good.com"
  ∧ filter_urls ["http://["] [] = Raise ValueError
  ∧ filter_urls ["http://good.com/"; "http://["] [] = Raise ValueError
  ∧ filter_urls ["http://["; "http://good.com/"] [] = Raise ValueError.
Proof.
  repeat split; vm_compute; reflexivity.
Qed.

(** C7, idempotence: when a filter, in either mode, maps the input to the
    in-scope set [K], filtering [K] (iterated in any order) with the same
    out-of-scope set (iterated in any order) gives [K] again and removes
    nothing. *)
Theorem filter_idempotent `{RT : Runtime} (O O' : list string) :
  (∀ x, x ∈ O' ↔ x ∈ O) →
  (∀ (S ks : list string) (K : gset string) (R : list removal),
     filter_subdomains S O = (K, R) → list_to_set ks = K →
     filter_subdomains ks O' = (K, []))
  ∧ (∀ (S ks : list string) (K : gset string)
       (R : gmap string (nat * string * string)),
       filter_urls S O = Ok (K, R) → list_to_set ks = K →
       filter_urls ks O' = Ok (K, ∅)).
Proof.
  intros HO. split.
  - intros S ks K R Hf Hks.
    assert (HK : K = (filter_subdomains S O).1) by by rewrite Hf.
    rewrite HK. apply filter_subdomains_again; [done|]. by rewrite <-HK.
  - intros S ks K R Hf Hks. by apply (filter_urls_again S O O' ks K R).
Qed.

Lemma filter_idempotent_witness :
  let O := ["*.example.com"; "http://a.example.com/*"] in
  (∀ x, x ∈ O ↔ x ∈ O)
  ∧ filter_subdomains ["a.example.com"; "b.example.com"; "evil.com"] O
    = ({[ "evil.com" ]},
       [("a.example.com", "wildcard match", "*.example.com");
        ("b.example.com", "wildcard match", "*.example.com")])
  ∧ filter_subdomains ["evil.com"] O = ({[ "evil.com" ]}, [])
  ∧ filter_urls ["http://a.example.com/x"; "https://good.com/y"] O
    = Ok ({[ "https://good.com/y" ]},
          {[ "a.example.com"
             := (1, "wildcard URL match", "http://a.example.com/*") ]})
  ∧ filter_urls ["https://good.com/y"] O = Ok ({[ "https://good.com/y" ]}, ∅).
Proof.
  cbv zeta.
  assert (HO : ∀ x : string,
            x ∈ ["*.example.com"; "http://a.example.com/*"]
            ↔ x ∈ ["*.example.com"; "http://a.example.com/*"]) by done.
  destruct (filter_idempotent (RT:=cpython) _ _ HO) as [Hsub Hurl].
  assert (H1 : filter_subdomains (RT:=cpython)
                 ["a.example.com"; "b.example.com"; "evil.com"]
                 ["*.example.com"; "http://a.example.com/*"]
               = ({[ "evil.com" ]},
                  [("a.example.com", "wildcard match", "*.example.com");
                   ("b.example.com", "wildcard match", "*.example.com")]))
    by (vm_compute; reflexivity).
  assert (H2 : filter_urls (RT:=cpython)
                 ["http://a.example.com/x"; "https://good.com/y"]
                 ["*.example.com"; "http://a.example.com/*"]
               = Ok ({[ "https://good.com/y" ]},
                     {[ "a.example.com"
                        := (1, "wildcard URL match",
                            "http://a.example.com/*") ]}))
    by (vm_compute; reflexivity).
  split; [exact HO|]. split; [exact H1|].
  split; [apply (Hsub _ ["evil.com"] _ _ H1); vm_compute; reflexivity|].
  split; [exact H2|].
  apply (Hurl _ ["https://good.com/y"] _ _ H2). vm_compute. reflexivity.
Defined.

(** ** The loader and the writer *)

Lemma sorted_Sorted (items : list string) : Sorted String.le (sorted items).
Proof. apply Sorted_merge_sort, _. Qed.

Lemma sorted_Permutation (items : list string) : sorted items ≡ₚ items.
Proof. apply merge_sort_Permutation. Qed.

(** The sorted list of a set does not depend on the order in which the set
    is iterated. *)
Lemma sorted_order_irrelevant (items items' : list string) :
  NoDup items → NoDup items' → (∀ x, x ∈ items ↔ x ∈ items') →
  sorted items = sorted items'.
Proof.
  intros Hnd Hnd' Heq. apply (Sorted_unique String.le).
  - apply sorted_Sorted.
  - apply sorted_Sorted.
  - rewrite !sorted_Permutation. by apply NoDup_Permutation.
Qed.

Lemma append_assoc (s1 s2 s3 : string) : (s1 +:+ s2) +:+ s3 = s1 +:+ s2 +:+ s3.
Proof.
  induction s1 as [|a s1 IH]; [done|].
  change (String a ((s1 +:+ s2) +:+ s3) = String a (s1 +:+ s2 +:+ s3)).
  by rewrite IH.
Qed.

Section file_facts.
Context `{RT : Runtime}.

Lemma save_loop (written : string) (items : list string) :
  foldl (λ written item, written +:+ line_of item) written items
  = written +:+ text_of_lines items.
Proof.
  revert written. unfold text_of_lines.
  induction items as [|x items IH]; intros written; cbn [foldl foldr].
  - induction written as [|a w IHw]; [done|].
    change (String a w = String a (w +:+ EmptyString)). by rewrite <-IHw.
  - by rewrite IH, append_assoc.
Qed.

Lemma save_to_file_text (items : list string) :
  save_to_file items = text_of_lines (sorted items).
Proof. unfold save_to_file. by rewrite save_loop. Qed.

(** The elements a reading loop adds are the stripped lines that are
    not empty. *)
Lemma load_loop (lines items : list string) x :
  x ∈ foldl load_body items lines ↔
  x ∈ items ∨ (x ≠ EmptyString ∧ ∃ line, line ∈ lines ∧ str_strip line = x).
Proof.
  revert items. induction lines as [|l lines IH]; intros items; cbn [foldl].
  - split; [by left|]. intros [?|(_ & line & Hl & _)]; [done|].
    by apply elem_of_nil in Hl.
  - rewrite IH. unfold load_body.
    destruct (truthy (Some (str_strip l))) as [s|] eqn:Ht.
    + apply truthy_Some in Ht as [[= <-] Hne]. rewrite elem_of_app.
      rewrite list_elem_of_singleton. split.
      * intros [[?| ->]|(? & line & ? & ?)]; [by left| |].
        -- right. split; [done|]. exists l. split; [left|done].
        -- right. split; [done|]. exists line. split; [by right|done].
      * intros [?|(? & line & [ ->|?]%elem_of_cons & ?)].
        -- by left; left.
        -- by left; right.
        -- right. split; [done|]. by exists line.
    + apply truthy_None in Ht as [?|[= Hempty]]; [done|]. split.
      * intros [?|(? & line & ? & ?)]; [by left|].
        right. split; [done|]. exists line. split; [by right|done].
      * intros [?|(? & line & [ ->|?]%elem_of_cons & ?)]; [by left| |].
        -- congruence.
        -- right. split; [done|]. by exists line.
Qed.

(** The set [load_file] returns holds the stripped, non-empty lines once
    each, whatever their order and however often they occur. *)
Lemma load_file_Utf8 (lines l : list string) :
  load_file (Utf8 lines) = Returns l →
  NoDup l
  ∧ ∀ x, x ∈ l ↔
      x ≠ EmptyString ∧ ∃ line, line ∈ lines ∧ str_strip line = x.
Proof.
  intros [= <-]. split; [apply set_order_NoDup|]. intros x.
  rewrite set_order_elem_of, load_loop, elem_of_nil. tauto.
Qed.

(** The in-scope set depends on the input set only through its
    elements. *)
Lemma in_scope_subdomains_order (S S' O : list string) :
  (∀ x, x ∈ S ↔ x ∈ S') →
  (filter_subdomains S O).1 = (filter_subdomains S' O).1.
Proof.
  intros Heq. apply set_eq. intros x. by rewrite !elem_of_in_scope, Heq.
Qed.

Lemma in_scope_urls_order (S S' O : list string) K R K' R' :
  (∀ x, x ∈ S ↔ x ∈ S') →
  filter_urls S O = Ok (K, R) → filter_urls S' O = Ok (K', R') →
  K = K'.
Proof.
  intros Heq (_ & -> & _)%filter_urls_closed (_ & -> & _)%filter_urls_closed.
  apply set_eq. intros x.
  by rewrite !elem_of_list_to_set, !list_elem_of_filter, Heq.
Qed.
End file_facts.

Lemma text_of_lines_explicit (items : list string) :
  text_of_lines items
  = foldr (λ item rest, item +:+ String "010"%char rest) EmptyString items.
Proof.
  unfold text_of_lines. induction items as [|x items IH]; [done|].
  cbn [foldr]. rewrite IH. unfold line_of, newline. by rewrite append_assoc.
Qed.


(** A run that saves the in-scope set writes each of its items once,
    followed by a line feed, in ascending order of the strings, whatever
    the input file; and when the input file decodes as UTF-8, a run on a
    file with the same lines in another order, or repeated, has the same
    in-scope set and writes the same text. *)
Theorem sorted_deduplicated_output `{RT : Runtime} (urls_mode : bool)
    (input outscope : file) (in_scope : gset string) (text : string) :
  run input outscope urls_mode in_scope text →
  (∃ written,
     text = foldr (λ item rest, item +:+ String "010"%char rest)
              EmptyString written
     ∧ Sorted String.le written
     ∧ NoDup written
     ∧ ∀ x, x ∈ written ↔ x ∈ in_scope)
  ∧ ∀ lines lines' in_scope' text',
      input = Utf8 lines →
      (∀ line, line ∈ lines ↔ line ∈ lines') →
      run (Utf8 lines') outscope urls_mode in_scope' text' →
      in_scope' = in_scope ∧ text' = text.
Proof.
  intros Hrun.
  assert (Hwritten : ∀ items : list string, NoDup items →
            Sorted String.le (sorted items) ∧ NoDup (sorted items)
            ∧ ∀ x, x ∈ sorted items ↔ x ∈ (list_to_set items : gset string)).
  { intros items Hnd. split; [apply sorted_Sorted|]. split.
    - by rewrite sorted_Permutation.
    - intros x. by rewrite sorted_Permutation, elem_of_list_to_set. }
  assert (Htext : ∀ items items' : list string,
            NoDup items → NoDup items' →
            (list_to_set items : gset string) = list_to_set items' →
            save_to_file items' = save_to_file items).
  { intros items items' Hnd Hnd' Hset. rewrite !save_to_file_text. f_equal.
    apply sorted_order_irrelevant; [done..|]. intros x.
    by rewrite <-(elem_of_list_to_set (C:=gset string)), <-Hset,
      elem_of_list_to_set. }
  split.
  - destruct Hrun as [l O items Hl HO Hnd Hitems
                     |l O items K R Hl HO Hf Hnd Hitems];
      exists (sorted items);
      (split; [by rewrite save_to_file_text, text_of_lines_explicit|]);
      rewrite <-Hitems; by apply Hwritten.
  - intros lines lines' in_scope' text' -> Hlines Hrun'.
    assert (Hsame : ∀ (l l' : list string),
              load_file (Utf8 lines) = Returns l →
              load_file (Utf8 lines') = Returns l' → ∀ x, x ∈ l ↔ x ∈ l').
    { intros l l' [_ Hl]%load_file_Utf8 [_ Hl']%load_file_Utf8 x.
      rewrite Hl, Hl'. split; intros [? (line & ? & ?)]; (split; [done|]);
        exists line; (split; [by apply Hlines|done]). }
    destruct Hrun as [l O items Hl HO Hnd Hitems
                     |l O items K R Hl HO Hf Hnd Hitems].
    + inversion Hrun' as [l' O' items' Hl' HO' Hnd' Hitems' Hk Ht|];
        subst. rewrite HO in HO'. injection HO' as <-.
      assert (HK : (filter_subdomains l' O).1 = (filter_subdomains l O).1).
      { apply in_scope_subdomains_order. intros x. symmetry. by apply Hsame. }
      split; [done|]. apply Htext; [done..|]. by rewrite Hitems, Hitems'.
    + inversion Hrun' as [|l' O' items' K' R' Hl' HO' Hf' Hnd' Hitems' Hk Ht];
        subst. rewrite HO in HO'. injection HO' as <-.
      assert (HK : list_to_set items' = (list_to_set items : gset string)).
      { symmetry. apply (in_scope_urls_order l l' O _ R _ R'); [|done..].
        by apply Hsame. }
      split; [done|]. apply Htext; [done..|]. by rewrite HK.
Qed.

Lemma sorted_deduplicated_output_witness :
  let lines := [line_of "b.com"; line_of "a.com"; line_of "b.com"] in
  let lines' := [line_of "b.com"; line_of "a.com"] in
  let outscope := Utf8 [line_of "*.example.com"] in
  let in_scope := (filter_subdomains ["a.com"; "b.com"] ["*.example.com"]).1 in
  let in_scope' := (filter_subdomains ["b.com"; "a.com"] ["*.example.com"]).1 in
  run (Utf8 lines) outscope false in_scope (save_to_file ["b.com"; "a.com"])
  ∧ (∀ line, line ∈ lines ↔ line ∈ lines')
  ∧ run (Utf8 lines') outscope false in_scope' (save_to_file ["a.com"; "b.com"])
  ∧ save_to_file ["b.com"; "a.com"]
    = String "a" (String "." (String "c" (String "o" (String "m"
        (String "010" (String "b" (String "." (String "c" (String "o"
          (String "m" (String "010" EmptyString)))))))))))
  ∧ (∃ written,
       save_to_file ["b.com"; "a.com"]
       = foldr (λ item rest, item +:+ String "010"%char rest)
           EmptyString written
       ∧ Sorted String.le written
       ∧ NoDup written
       ∧ ∀ x, x ∈ written ↔ x ∈ in_scope)
  ∧ in_scope' = in_scope
  ∧ save_to_file ["a.com"; "b.com"] = save_to_file ["b.com"; "a.com"].
Proof.
  cbv zeta.
  assert (Hlines : ∀ line : string,
            line ∈ [line_of "b.com"; line_of "a.com"; line_of "b.com"]
            ↔ line ∈ [line_of "b.com"; line_of "a.com"]).
  { intros line. rewrite !elem_of_cons, elem_of_nil. tauto. }
  assert (Hrun : run (RT:=cpython)
                   (Utf8 [line_of "b.com"; line_of "a.com"; line_of "b.com"])
                   (Utf8 [line_of "*.example.com"]) false
                   (filter_subdomains ["a.com"; "b.com"] ["*.example.com"]).1
                   (save_to_file ["b.com"; "a.com"])).
  { apply run_subdomains.
    - vm_compute. reflexivity.
    - vm_compute. reflexivity.
    - compute_done.
    - vm_compute. reflexivity. }
  assert (Hrun' : run (RT:=cpython)
                    (Utf8 [line_of "b.com"; line_of "a.com"])
                    (Utf8 [line_of "*.example.com"]) false
                    (filter_subdomains ["b.com"; "a.com"] ["*.example.com"]).1
                    (save_to_file ["a.com"; "b.com"])).
  { apply run_subdomains.
    - vm_compute. reflexivity.
    - vm_compute. reflexivity.
    - compute_done.
    - vm_compute. reflexivity. }
  split; [exact Hrun|]. split; [exact Hlines|]. split; [exact Hrun'|].
  split; [vm_compute; reflexivity|].
  destruct (sorted_deduplicated_output false _ _ _ _ Hrun) as [Hw Hsame].
  split; [exact Hw|].
  exact (Hsame _ _ _ _ eq_refl Hlines Hrun').
Defined.

(** ** The two scenarios of the specification *)

Example scenario_subdomains :
  filter_subdomains ["a.example.com"; "b.example.com"; "evil.com"]
    ["*.example.com"]
  = ({[ "evil.com" ]},
     [("a.example.com", "wildcard match", "*.example.com");
      ("b.example.com", "wildcard match", "*.example.com")]).
Proof. vm_compute. reflexivity. Qed.

Example scenario_urls :
  filter_urls ["http://a.example.com/x"; "https://good.com/y"]
    ["http://a.example.com/*"]
  = Ok ({[ "https://good.com/y" ]},
        {[ "a.example.com"
           := (1, "wildcard URL match", "http://a.example.com/*") ]}).
Proof. vm_compute. reflexivity. Qed.

(** * Further properties of the code *)

(** ** The matcher and the classifier *)

(** [matches_wildcard] answers with the first pattern, in the order of
    iteration, that matches the item, and with [None] exactly when no
    pattern matches. *)
Theorem matches_wildcard_first `{RT : Runtime} (item : string)
    (patterns : list string) :
  (∀ p, matches_wildcard item patterns = Some p ↔
        ∃ before after,
          patterns = before ++ p :: after
          ∧ (∀ q, q ∈ before → fnmatch item q = false)
          ∧ fnmatch item p = true)
  ∧ (matches_wildcard item patterns = None ↔
     ∀ q, q ∈ patterns → fnmatch item q = false).
Proof.
  split; [|apply matches_wildcard_None].
  induction patterns as [|q patterns IH]; intros p; simpl.
  - split; [done|]. intros (before & after & H & _).
    by destruct before.
  - destruct (fnmatch item q) eqn:Hq.
    + split.
      * intros [= <-]. exists [], patterns. split; [done|].
        split; [by intros ? ?%elem_of_nil|done].
      * intros ([|q' before] & after & H & Hb & Hp).
        -- by injection H as ->.
        -- injection H as <- _. rewrite (Hb q) in Hq; [done|left].
    + rewrite IH. split.
      * intros (before & after & -> & Hb & Hp).
        exists (q :: before), after. split; [done|]. split; [|done].
        intros q' [ ->|?]%elem_of_cons; auto.
      * intros ([|q' before] & after & H & Hb & Hp).
        -- injection H as -> _. congruence.
        -- injection H as <- ->. exists before, after. split; [done|].
           split; [|done]. intros q' Hq'. apply Hb. by right.
Qed.

(** The classification loop of [filter_urls] puts every out-of-scope entry
    into exactly one of the four sets, by its scheme prefix and its [*], and
    nothing else into any of them. *)
Theorem classify_partition `{RT : Runtime} (O : list string) (x : string) :
  (x ∈ domain_exact (classify O) ↔
     x ∈ O ∧ is_url_pattern x = false ∧ has_star x = false)
  ∧ (x ∈ domain_wildcards (classify O) ↔
     x ∈ O ∧ is_url_pattern x = false ∧ has_star x = true)
  ∧ (x ∈ url_exact (classify O) ↔
     x ∈ O ∧ is_url_pattern x = true ∧ has_star x = false)
  ∧ (x ∈ url_wildcards (classify O) ↔
     x ∈ O ∧ is_url_pattern x = true ∧ has_star x = true)
  ∧ Nat.b2n (bool_decide (x ∈ domain_exact (classify O)))
    + Nat.b2n (bool_decide (x ∈ domain_wildcards (classify O)))
    + Nat.b2n (bool_decide (x ∈ url_exact (classify O)))
    + Nat.b2n (bool_decide (x ∈ url_wildcards (classify O)))
    = Nat.b2n (bool_decide (x ∈ O))
  ∧ NoDup (domain_wildcards (classify O))
  ∧ NoDup (url_wildcards (classify O)).
Proof.
  split; [apply elem_of_domain_exact|]. split; [apply elem_of_domain_wildcards|].
  split; [apply elem_of_url_exact|]. split; [apply elem_of_url_wildcards|].
  split; [|split; apply set_order_NoDup].
  pose proof (elem_of_domain_exact O x) as H1.
  pose proof (elem_of_domain_wildcards O x) as H2.
  pose proof (elem_of_url_exact O x) as H3.
  pose proof (elem_of_url_wildcards O x) as H4.
  destruct (is_url_pattern x), (has_star x);
    repeat case_bool_decide; simpl; try done; exfalso; intuition discriminate.
Qed.

(** ** Subdomain mode *)

Section subdomain_more.
Context `{RT : Runtime}.

Lemma subdomain_verdict_Some (O : list string) x reason pattern :
  subdomain_verdict (exact_of O) (wildcards_of O) x = Some (reason, pattern) →
  (reason = "exact match" ∧ pattern = x ∧ x ∈ O ∧ has_star x = false)
  ∨ (reason = "wildcard match" ∧ pattern ∈ O ∧ has_star pattern = true
     ∧ fnmatch x pattern = true ∧ ¬ (x ∈ O ∧ has_star x = false)).
Proof.
  unfold subdomain_verdict.
  destruct (decide (x ∈ exact_of O)) as [He|He]; rewrite elem_of_exact_of in He.
  - intros [= <- <-]. left. tauto.
  - destruct (truthy (matches_wildcard x (wildcards_of O))) as [p|] eqn:Hp;
      [|done].
    intros [= <- <-]. right.
    apply truthy_Some in Hp as [Hp _].
    apply matches_wildcard_Some in Hp as [[? ?]%elem_of_wildcards_of ?].
    tauto.
Qed.

Lemma size_list_to_set_NoDup (l : list string) :
  NoDup l → size (list_to_set l : gset string) = length l.
Proof. apply size_list_to_set. Qed.

Lemma length_filter_split {A : Type} (P : A → Prop) `{∀ x, Decision (P x)}
    (l : list A) :
  length l = length (filter P l) + length (filter (λ x, ¬ P x) l).
Proof.
  induction l as [|x l IH]; [done|]. rewrite !filter_cons.
  destruct (decide (P x)).
  - rewrite decide_False by tauto. simpl. lia.
  - rewrite decide_True by done. simpl. lia.
Qed.

Lemma filter_ext_elem_of {A : Type} (P Q : A → Prop)
    `{∀ x, Decision (P x)} `{∀ x, Decision (Q x)} (l : list A) :
  (∀ x, x ∈ l → P x ↔ Q x) → filter P l = filter Q l.
Proof.
  induction l as [|x l IH]; intros Hall; [done|]. rewrite !filter_cons.
  rewrite IH by (intros y Hy; apply Hall; by right).
  destruct (decide (P x)) as [HP|HP].
  - rewrite decide_True; [done|]. apply Hall; [left|done].
  - rewrite decide_False; [done|]. intros HQ. apply HP, Hall; [left|done].
Qed.

Lemma length_omap_subdomain_record (S O : list string) :
  length (omap (subdomain_record (exact_of O) (wildcards_of O)) S)
  = length (filter (λ x, ¬ subdomain_verdict (exact_of O) (wildcards_of O) x
                           = None) S).
Proof.
  induction S as [|x S IH]; [done|].
  rewrite omap_cons_eq, filter_cons. unfold subdomain_record at 1.
  destruct (subdomain_verdict (exact_of O) (wildcards_of O) x) as [[r p]|].
  - rewrite decide_True by done. simpl. by rewrite IH.
  - rewrite decide_False by tauto. done.
Qed.
End subdomain_more.

(** An item is in scope exactly when it is in the input, is not a [*]-free
    out-of-scope entry and matches no out-of-scope entry that has a [*]:
    nothing out of scope is kept, nothing else is dropped, and nothing is
    added or rewritten. *)
Theorem subdomain_in_scope_iff `{RT : Runtime} (S O : list string) (x : string) :
  x ∈ (filter_subdomains S O).1 ↔
  x ∈ S
  ∧ ¬ (x ∈ O ∧ has_star x = false)
  ∧ ∀ p, p ∈ O → has_star p = true → fnmatch x p = false.
Proof. by rewrite elem_of_in_scope, subdomain_verdict_None. Qed.

(** Every row of the subdomain report is justified by the out-of-scope set:
    an "exact match" row names an input item that is itself a [*]-free
    entry, a "wildcard match" row names an entry with a [*] that matches the
    item, and the item of a row is never in scope. *)
Theorem subdomain_report_sound `{RT : Runtime} (S O : list string)
    (x reason pattern : string) :
  (x, reason, pattern) ∈ (filter_subdomains S O).2 →
  x ∈ S
  ∧ (x ∉ (filter_subdomains S O).1)
  ∧ ((reason = "exact match" ∧ pattern = x ∧ x ∈ O ∧ has_star x = false)
     ∨ (reason = "wildcard match" ∧ pattern ∈ O ∧ has_star pattern = true
        ∧ fnmatch x pattern = true ∧ ¬ (x ∈ O ∧ has_star x = false))).
Proof.
  intros [Hx Hv]%elem_of_removed. split; [done|]. split.
  - rewrite elem_of_in_scope, Hv. by intros [_ ?].
  - by apply subdomain_verdict_Some.
Qed.

Lemma subdomain_report_sound_witness :
  let S := ["api.example.com"; "evil.com"] in
  let O := ["*.example.com"; "evil.com"] in
  ("api.example.com", "wildcard match", "*.example.com")
    ∈ (filter_subdomains S O).2
  ∧ "api.example.com" ∈ S
  ∧ ("api.example.com" ∉ (filter_subdomains S O).1)
  ∧ (("wildcard match" = "exact match" ∧ "*.example.com" = "api.example.com"
      ∧ "api.example.com" ∈ O ∧ has_star "api.example.com" = false)
     ∨ ("wildcard match" = "wildcard match" ∧ "*.example.com" ∈ O
        ∧ has_star "*.example.com" = true
        ∧ fnmatch "api.example.com" "*.example.com" = true
        ∧ ¬ ("api.example.com" ∈ O ∧ has_star "api.example.com" = false))).
Proof.
  cbv zeta.
  assert (H : ("api.example.com", "wildcard match", "*.example.com")
              ∈ (filter_subdomains (RT:=cpython)
                   ["api.example.com"; "evil.com"]
                   ["*.example.com"; "evil.com"]).2).
  { assert ((filter_subdomains (RT:=cpython) ["api.example.com"; "evil.com"]
               ["*.example.com"; "evil.com"]).2
            = [("api.example.com", "wildcard match", "*.example.com");
               ("evil.com", "exact match", "evil.com")]) as ->
      by (vm_compute; reflexivity).
    left. }
  split; [exact H|].
  exact (subdomain_report_sound _ _ _ _ _ H).
Defined.

(** The subdomain column of the report is the input in its iteration order
    without the items that are in scope: the rows keep the order of the
    input and an item that occurs several times has a row for each
    occurrence. *)
Theorem subdomain_report_order `{RT : Runtime} (S O : list string) :
  removed_subdomains (filter_subdomains S O).2
  = filter (λ x, x ∉ (filter_subdomains S O).1) S.
Proof.
  rewrite removed_subdomains_filter. apply filter_ext_elem_of.
  intros x Hx. rewrite elem_of_in_scope. tauto.
Qed.

(** In subdomain mode the three numbers of the summary add up: the number
    of input items is the number of report rows plus the number of in-scope
    items. *)
Theorem summary_subdomains_adds_up `{RT : Runtime} (S O : list string) :
  NoDup S →
  ∃ removed in_scope,
    summary false S O = Ok (length S, removed, in_scope)
    ∧ length S = removed + in_scope.
Proof.
  intros HS. unfold summary. rewrite (filter_subdomains_closed S O).
  eexists _, _. split; [done|].
  rewrite size_list_to_set_NoDup by (by apply NoDup_filter).
  rewrite length_omap_subdomain_record.
  rewrite (length_filter_split
             (λ x, subdomain_verdict (exact_of O) (wildcards_of O) x = None) S).
  lia.
Qed.

Lemma summary_subdomains_adds_up_witness :
  let S := ["a.example.com"; "b.example.com"; "evil.com"] in
  NoDup S
  ∧ ∃ removed in_scope,
      summary false S ["*.example.com"] = Ok (length S, removed, in_scope)
      ∧ length S = removed + in_scope.
Proof.
  cbv zeta.
  assert (H : NoDup ["a.example.com"; "b.example.com"; "evil.com"])
    by compute_done.
  split; [exact H|].
  exact (summary_subdomains_adds_up (RT:=cpython) _ ["*.example.com"] H).
Defined.

(** A larger out-of-scope set never lets more through: every item that is
    in scope after entries were added was in scope before. *)
Theorem subdomain_more_entries_keep_less `{RT : Runtime} (S O O' : list string) :
  (∀ x, x ∈ O → x ∈ O') →
  (filter_subdomains S O').1 ⊆ (filter_subdomains S O).1.
Proof.
  intros HO x. rewrite !elem_of_in_scope, !subdomain_verdict_None.
  intros (Hx & He & Hw). split; [done|]. split.
  - intros [? ?]. apply He. auto.
  - intros p Hp. apply Hw. auto.
Qed.

Lemma subdomain_more_entries_keep_less_witness :
  let S := ["a.example.com"; "evil.com"; "ok.org"] in
  let O := ["*.example.com"] in
  let O' := ["evil.com"; "*.example.com"] in
  (∀ x, x ∈ O → x ∈ O')
  ∧ (filter_subdomains S O').1 = {[ "ok.org" ]}
  ∧ (filter_subdomains S O).1 = {[ "evil.com"; "ok.org" ]}
  ∧ (filter_subdomains S O').1 ⊆ (filter_subdomains S O).1.
Proof.
  cbv zeta.
  assert (HO : ∀ x : string,
            x ∈ ["*.example.com"] → x ∈ ["evil.com"; "*.example.com"]).
  { intros x ->%list_elem_of_singleton. right. left. }
  split; [exact HO|]. split; [vm_compute; reflexivity|].
  split; [vm_compute; reflexivity|].
  exact (subdomain_more_entries_keep_less (RT:=cpython) _ _ _ HO).
Defined.

(** Filtering in two passes is filtering once with both out-of-scope sets:
    the in-scope set of a second pass with [O2] over the in-scope set of a
    first pass with [O1] is the in-scope set of one pass with the entries of
    [O1] and [O2] together. *)
Theorem subdomain_two_passes `{RT : Runtime} (S O1 O2 ks : list string) :
  list_to_set ks = (filter_subdomains S O1).1 →
  (filter_subdomains ks O2).1 = (filter_subdomains S (O1 ++ O2)).1.
Proof.
  intros Hks. apply set_eq. intros x.
  rewrite !elem_of_in_scope, !subdomain_verdict_None.
  rewrite <-(elem_of_list_to_set (C:=gset string)), Hks, elem_of_in_scope,
    subdomain_verdict_None.
  setoid_rewrite elem_of_app. split.
  - intros ((Hx & He1 & Hw1) & He2 & Hw2). split; [done|]. split.
    + intros [[?|?] ?]; tauto.
    + intros p [?|?]; auto.
  - intros (Hx & He & Hw). split; [split; [done|split]|split].
    + intros [? ?]. apply He. auto.
    + intros p ?. apply Hw. auto.
    + intros [? ?]. apply He. auto.
    + intros p ?. apply Hw. auto.
Qed.

Lemma subdomain_two_passes_witness :
  let S := ["a.example.com"; "evil.com"; "ok.org"] in
  let O1 := ["*.example.com"] in
  let O2 := ["evil.com"] in
  list_to_set ["evil.com"; "ok.org"] = (filter_subdomains S O1).1
  ∧ (filter_subdomains S (O1 ++ O2)).1 = {[ "ok.org" ]}
  ∧ (filter_subdomains ["evil.com"; "ok.org"] O2).1
    = (filter_subdomains S (O1 ++ O2)).1.
Proof.
  cbv zeta.
  assert (H : list_to_set ["evil.com"; "ok.org"]
              = (filter_subdomains (RT:=cpython)
                   ["a.example.com"; "evil.com"; "ok.org"]
                   ["*.example.com"]).1)
    by (vm_compute; reflexivity).
  split; [exact H|]. split; [vm_compute; reflexivity|].
  exact (subdomain_two_passes _ _ ["evil.com"] _ H).
Defined.

(** With an empty out-of-scope set nothing is removed: every input item is
    in scope and the report is empty. *)
Theorem subdomain_nothing_out_of_scope `{RT : Runtime} (S : list string) :
  filter_subdomains S [] = (list_to_set S, []).
Proof.
  assert (Hall : ∀ x, x ∈ S →
            subdomain_verdict (exact_of []) (wildcards_of []) x = None).
  { intros x _. apply subdomain_verdict_None. split.
    - by intros [?%elem_of_nil _].
    - by intros p ?%elem_of_nil. }
  apply all_kept_loop in Hall as [Hf Hr].
  by rewrite filter_subdomains_closed, Hf, Hr.
Qed.

(** ** URL mode *)

Section url_more.
Context `{RT : Runtime}.

Lemma url_verdict_Some (O : list string) d url reason pattern :
  url_verdict (classify O) d url = Some (reason, pattern) →
  (reason = "exact URL match" ∧ pattern = str_lower url ∧ pattern ∈ O
   ∧ is_url_pattern pattern = true ∧ has_star pattern = false)
  ∨ (reason = "wildcard URL match" ∧ pattern ∈ O
     ∧ is_url_pattern pattern = true ∧ has_star pattern = true
     ∧ fnmatch (str_lower url) pattern = true)
  ∨ (reason = "exact domain match" ∧ pattern = d ∧ d ∈ O
     ∧ is_url_pattern d = false ∧ has_star d = false)
  ∨ (reason = "wildcard domain match" ∧ pattern ∈ O
     ∧ is_url_pattern pattern = false ∧ has_star pattern = true
     ∧ fnmatch d pattern = true).
Proof.
  unfold url_verdict.
  destruct (decide (str_lower url ∈ url_exact (classify O))) as [He|_].
  { apply elem_of_url_exact in He. intros [= <- <-]. left. tauto. }
  destruct (truthy (matches_wildcard (str_lower url)
                      (url_wildcards (classify O)))) as [q|] eqn:Hq.
  { intros [= <- <-]. right; left.
    apply truthy_Some in Hq as [Hq _].
    apply matches_wildcard_Some in Hq as [?%elem_of_url_wildcards ?]. tauto. }
  destruct (decide (d ∈ domain_exact (classify O))) as [Hd|_].
  { apply elem_of_domain_exact in Hd. intros [= <- <-]. right; right; left.
    tauto. }
  destruct (truthy (matches_wildcard d (domain_wildcards (classify O))))
    as [q|] eqn:Hq'; [|done].
  intros [= <- <-]. right; right; right.
  apply truthy_Some in Hq' as [Hq' _].
  apply matches_wildcard_Some in Hq' as [?%elem_of_domain_wildcards ?]. tauto.
Qed.

Lemma url_removal_Some b url d reason pattern :
  url_removal b url = Some (d, reason, pattern) ↔
  hostname_of url = Some d ∧ url_verdict b d url = Some (reason, pattern).
Proof.
  unfold url_removal. destruct (hostname_of url) as [d'|].
  - destruct (url_verdict b d' url) as [[r p]|] eqn:Hv.
    + split; [by intros [= -> -> ->]|]. intros [[= ->] Hv'].
      rewrite Hv in Hv'. by injection Hv' as -> ->.
    + split; [done|]. intros [[= ->] Hv']. by rewrite Hv in Hv'.
  - split; [done|]. by intros [? _].
Qed.

(** The key of a hostname in the returned mapping goes back to the first
    URL removed under it. *)
Lemma lookup_removed_split (urls O : list string) in_scope removed
    d count reason pattern :
  filter_urls urls O = Ok (in_scope, removed) →
  removed !! d = Some (count, reason, pattern) →
  ∃ before u after,
    urls = before ++ u :: after
    ∧ url_removal (classify O) u = Some (d, reason, pattern)
    ∧ count = S (length (removals_under (classify O) d after)).
Proof.
  intros (_ & _ & ->)%filter_urls_closed Hlook.
  rewrite tally_lookup, lookup_empty in Hlook.
  destruct (removals_under (classify O) d urls) as [|u rest] eqn:Hr; [done|].
  apply filter_head_split in Hr as (before & after & -> & _ & Hu & <-).
  exists before, u, after. split; [done|].
  apply removed_under_Some in Hu as (r & p & Hu).
  rewrite Hu in Hlook. by injection Hlook as <- <- <-.
Qed.

Lemma alter_as_insert (f : nat * string * string → nat * string * string)
    (M : gmap string (nat * string * string)) d v :
  M !! d = Some v → alter f d M = <[d := f v]> (delete d M).
Proof.
  intros Hd. apply map_eq. intros j. rewrite lookup_alter.
  destruct (decide (d = j)) as [<-|Hne].
  - by rewrite Hd, lookup_insert_eq.
  - by rewrite lookup_insert_ne, lookup_delete_ne.
Qed.

Lemma total_removed_insert (M : gmap string (nat * string * string)) d v :
  M !! d = None → total_removed (<[d := v]> M) = v.1.1 + total_removed M.
Proof.
  intros Hd. unfold total_removed. rewrite map_fold_insert_L; [done| |done].
  intros. lia.
Qed.

(** Every recorded removal adds one to the sum of the counts. *)
Lemma total_removed_record d r p (M : gmap string (nat * string * string)) :
  total_removed (record_removal d r p M) = S (total_removed M).
Proof.
  unfold record_removal. destruct (M !! d) as [[[c r0] p0]|] eqn:Hd.
  - rewrite (alter_as_insert _ M d (c, r0, p0)) by done.
    rewrite total_removed_insert by apply lookup_delete_eq.
    rewrite <-(insert_delete_id M d (c, r0, p0)) at 2 by done.
    rewrite total_removed_insert by apply lookup_delete_eq. simpl. lia.
  - rewrite alter_insert_eq. by rewrite total_removed_insert.
Qed.

Lemma total_removed_tally (M : gmap string (nat * string * string))
    (rs : list (string * string * string)) :
  total_removed (tally M rs) = total_removed M + length rs.
Proof.
  revert M. induction rs as [|[[d r] p] rs IH]; intros M; simpl.
  - lia.
  - unfold tally in *. cbn [foldl]. rewrite IH, total_removed_record. lia.
Qed.

(** Every URL is kept, removed or without a hostname. *)
Lemma url_trichotomy b (u : string) :
  (url_kept b u = true ∧ url_removal b u = None ∧ hostname_of u ≠ None)
  ∨ (url_kept b u = false ∧ (∃ t, url_removal b u = Some t)
     ∧ hostname_of u ≠ None)
  ∨ (url_kept b u = false ∧ url_removal b u = None ∧ hostname_of u = None).
Proof.
  unfold url_kept, url_removal. destruct (hostname_of u) as [d|].
  - destruct (url_verdict b d u) as [[r p]|].
    + right; left. split; [by apply bool_decide_eq_false_2|].
      split; [by eexists|done].
    + left. split; [by apply bool_decide_eq_true_2|done].
  - right; right. done.
Qed.

Lemma url_three_ways b (urls : list string) :
  length urls
  = length (filter (λ u, url_kept b u = true) urls)
    + length (omap (url_removal b) urls)
    + length (filter (λ u, hostname_of u = None) urls).
Proof.
  induction urls as [|u urls IH]; [done|].
  rewrite !filter_cons, omap_cons_eq.
  destruct (url_trichotomy b u)
    as [(Hk & Hr & Hd)|[(Hk & [t Hr] & Hd)|(Hk & Hr & Hd)]]; rewrite Hr.
  - rewrite decide_True by done. rewrite decide_False by done. simpl. lia.
  - rewrite decide_False by congruence. rewrite decide_False by done.
    simpl. lia.
  - rewrite decide_False by congruence. rewrite decide_True by done.
    simpl. lia.
Qed.

Lemma parses_or_raises (urls : list string) :
  Forall parses urls
  ∨ ∃ u, u ∈ urls ∧ urlparse_hostname u = Raise ValueError.
Proof.
  induction urls as [|x urls [IH|(u & Hu & Hr)]].
  - left. constructor.
  - destruct (urlparse_hostname x) as [h|[]] eqn:Hx.
    + left. constructor; [by exists h|done].
    + right. exists x. split; [left|done].
  - right. exists u. split; [by right|done].
Qed.
End url_more.

Lemma url_in_scope_iff_aux `{RT : Runtime} (urls O : list string)
    (in_scope : gset string) (removed : gmap string (nat * string * string))
    (u : string) :
  filter_urls urls O = Ok (in_scope, removed) →
  u ∈ in_scope ↔
  u ∈ urls
  ∧ ∃ d, hostname_of u = Some d
    ∧ ¬ (str_lower u ∈ O ∧ is_url_pattern (str_lower u) = true
         ∧ has_star (str_lower u) = false)
    ∧ (∀ p, p ∈ O → is_url_pattern p = true → has_star p = true →
         fnmatch (str_lower u) p = false)
    ∧ ¬ (d ∈ O ∧ is_url_pattern d = false ∧ has_star d = false)
    ∧ (∀ p, p ∈ O → is_url_pattern p = false → has_star p = true →
         fnmatch d p = false).
Proof.
  intros (Hin & _)%url_accounting. rewrite Hin, url_kept_true.
  by setoid_rewrite url_verdict_None.
Qed.

(** [filter_urls] ends with the [ValueError] of [urlparse] exactly when
    [urlparse] raises on some input URL, whatever the out-of-scope set and
    the position of that URL; otherwise it returns. *)
Theorem filter_urls_raises_iff `{RT : Runtime} (urls O : list string) :
  (filter_urls urls O = Raise ValueError ↔
   ∃ u, u ∈ urls ∧ urlparse_hostname u = Raise ValueError)
  ∧ ((∃ in_scope removed, filter_urls urls O = Ok (in_scope, removed)) ↔
     Forall parses urls).
Proof.
  split; split.
  - intros Hr. destruct (parses_or_raises urls) as [Hall|?]; [|done].
    by rewrite (filter_urls_returns urls O Hall) in Hr.
  - intros (u & Hu & Hr). by apply (url_loop_raises _ urls _ u).
  - intros (in_scope & removed & H).
    by apply filter_urls_closed in H as [? _].
  - intros Hall. eexists _, _. by apply filter_urls_returns.
Qed.

(** A URL is in scope exactly when it is an input URL with a hostname whose
    lower-cased text is no [*]-free URL entry and matches no URL entry with
    a [*], and whose hostname is no [*]-free domain entry and matches no
    domain entry with a [*].  The in-scope URL is the input string itself,
    not its lower-cased form. *)
Theorem url_in_scope_iff `{RT : Runtime} (urls O : list string)
    (in_scope : gset string) (removed : gmap string (nat * string * string))
    (u : string) :
  filter_urls urls O = Ok (in_scope, removed) →
  u ∈ in_scope ↔
  u ∈ urls
  ∧ ∃ d, hostname_of u = Some d
    ∧ ¬ (str_lower u ∈ O ∧ is_url_pattern (str_lower u) = true
         ∧ has_star (str_lower u) = false)
    ∧ (∀ p, p ∈ O → is_url_pattern p = true → has_star p = true →
         fnmatch (str_lower u) p = false)
    ∧ ¬ (d ∈ O ∧ is_url_pattern d = false ∧ has_star d = false)
    ∧ (∀ p, p ∈ O → is_url_pattern p = false → has_star p = true →
         fnmatch d p = false).
Proof.
  intros (Hin & _)%url_accounting. rewrite Hin, url_kept_true.
  by setoid_rewrite url_verdict_None.
Qed.

Lemma url_in_scope_iff_witness :
  let urls := ["http://a.example.com/x"; "https://Good.com/Y"] in
  let O := ["http://a.example.com/*"] in
  filter_urls urls O
  = Ok ({[ "https://Good.com/Y" ]},
        {[ "a.example.com"
           := (1, "wildcard URL match", "http://a.example.com/*") ]})
  ∧ ("https://Good.com/Y" ∈ ({[ "https://Good.com/Y" ]} : gset string) ↔
     "https://Good.com/Y" ∈ urls
     ∧ ∃ d, hostname_of "https://Good.com/Y" = Some d
       ∧ ¬ (str_lower "https://Good.com/Y" ∈ O
            ∧ is_url_pattern (str_lower "https://Good.com/Y") = true
            ∧ has_star (str_lower "https://Good.com/Y") = false)
       ∧ (∀ p, p ∈ O → is_url_pattern p = true → has_star p = true →
            fnmatch (str_lower "https://Good.com/Y") p = false)
       ∧ ¬ (d ∈ O ∧ is_url_pattern d = false ∧ has_star d = false)
       ∧ (∀ p, p ∈ O → is_url_pattern p = false → has_star p = true →
            fnmatch d p = false)).
Proof.
  cbv zeta.
  assert (H : filter_urls (RT:=cpython)
                ["http://a.example.com/x"; "https://Good.com/Y"]
                ["http://a.example.com/*"]
              = Ok ({[ "https://Good.com/Y" ]},
                    {[ "a.example.com"
                       := (1, "wildcard URL match",
                           "http://a.example.com/*") ]}))
    by (vm_compute; reflexivity).
  split; [exact H|].
  exact (url_in_scope_iff _ _ _ _ "https://Good.com/Y" H).
Defined.

(** Every entry of the removal mapping is justified by an input URL of that
    hostname and by the out-of-scope set: the count is at least one and at
    most the number of input URLs, the reason is one of the four reasons,
    and the pattern is the lower-cased URL (an entry without [*]), a URL
    entry with [*] that matches the lower-cased URL, the hostname (an entry
    without [*]) or a domain entry with [*] that matches the hostname. *)
Theorem url_report_sound `{RT : Runtime} (urls O : list string)
    (in_scope : gset string) (removed : gmap string (nat * string * string))
    (d : string) (count : nat) (reason pattern : string) :
  filter_urls urls O = Ok (in_scope, removed) →
  removed !! d = Some (count, reason, pattern) →
  1 ≤ count ≤ length urls
  ∧ ∃ u, u ∈ urls ∧ hostname_of u = Some d ∧ (u ∉ in_scope)
    ∧ ((reason = "exact URL match" ∧ pattern = str_lower u ∧ pattern ∈ O
        ∧ is_url_pattern pattern = true ∧ has_star pattern = false)
       ∨ (reason = "wildcard URL match" ∧ pattern ∈ O
          ∧ is_url_pattern pattern = true ∧ has_star pattern = true
          ∧ fnmatch (str_lower u) pattern = true)
       ∨ (reason = "exact domain match" ∧ pattern = d ∧ d ∈ O
          ∧ is_url_pattern d = false ∧ has_star d = false)
       ∨ (reason = "wildcard domain match" ∧ pattern ∈ O
          ∧ is_url_pattern pattern = false ∧ has_star pattern = true
          ∧ fnmatch d pattern = true)).
Proof.
  intros Hf Hlook.
  destruct (lookup_removed_split urls O in_scope removed d count reason
              pattern Hf Hlook) as (before & u & after & -> & Hu & ->).
  split.
  - split; [lia|]. rewrite length_app. simpl.
    pose proof (length_filter
                  (λ url, removed_under (classify O) url = Some d) after).
    unfold removals_under. lia.
  - exists u. apply url_removal_Some in Hu as [Hd Hv].
    split; [apply elem_of_app; right; left|]. split; [done|]. split.
    + apply url_accounting in Hf as (Hin & _). rewrite Hin, url_kept_true.
      intros (_ & d' & Hd' & Hv'). rewrite Hd in Hd'. injection Hd' as <-.
      by rewrite Hv in Hv'.
    + by apply url_verdict_Some.
Qed.

Lemma url_report_sound_witness :
  let urls := ["http://a.example.com/a"; "http://a.example.com/x"] in
  let O := ["http://a.example.com/x*"; "a.example.com"] in
  let removed : gmap string (nat * string * string) :=
    {[ "a.example.com" := (2, "exact domain match", "a.example.com") ]} in
  filter_urls urls O = Ok (∅, removed)
  ∧ 1 ≤ 2 ≤ length urls
  ∧ ∃ u, u ∈ urls ∧ hostname_of u = Some "a.example.com"
    ∧ (u ∉ (∅ : gset string))
    ∧ (("exact domain match" = "exact URL match"
        ∧ "a.example.com" = str_lower u ∧ "a.example.com" ∈ O
        ∧ is_url_pattern "a.example.com" = true
        ∧ has_star "a.example.com" = false)
       ∨ ("exact domain match" = "wildcard URL match" ∧ "a.example.com" ∈ O
          ∧ is_url_pattern "a.example.com" = true
          ∧ has_star "a.example.com" = true
          ∧ fnmatch (str_lower u) "a.example.com" = true)
       ∨ ("exact domain match" = "exact domain match"
          ∧ "a.example.com" = "a.example.com" ∧ "a.example.com" ∈ O
          ∧ is_url_pattern "a.example.com" = false
          ∧ has_star "a.example.com" = false)
       ∨ ("exact domain match" = "wildcard domain match"
          ∧ "a.example.com" ∈ O
          ∧ is_url_pattern "a.example.com" = false
          ∧ has_star "a.example.com" = true
          ∧ fnmatch "a.example.com" "a.example.com" = true)).
Proof.
  cbv zeta.
  assert (H : filter_urls (RT:=cpython)
                ["http://a.example.com/a"; "http://a.example.com/x"]
                ["http://a.example.com/x*"; "a.example.com"]
              = Ok (∅, {[ "a.example.com"
                          := (2, "exact domain match", "a.example.com") ]}))
    by (vm_compute; reflexivity).
  split; [exact H|].
  exact (url_report_sound _ _ _ _ "a.example.com" 2 "exact domain match"
           "a.example.com" H eq_refl).
Defined.

(** A [*]-free domain entry takes out every URL of that hostname, whatever
    its scheme, path and letter case: none of them is in scope, and the
    count of the hostname is the number of input URLs with that hostname. *)
Theorem domain_entry_blocks_host `{RT : Runtime} (urls O : list string)
    (in_scope : gset string) (removed : gmap string (nat * string * string))
    (d : string) :
  d ∈ O → is_url_pattern d = false → has_star d = false →
  filter_urls urls O = Ok (in_scope, removed) →
  (∀ u, hostname_of u = Some d → u ∉ in_scope)
  ∧ count_of removed d = length (filter (λ u, hostname_of u = Some d) urls).
Proof.
  intros HO Hurl Hstar Hf.
  assert (Hrem : ∀ u, hostname_of u = Some d →
            removed_under (classify O) u = Some d).
  { intros u Hd. unfold removed_under, url_removal. rewrite Hd.
    destruct (url_verdict (classify O) d u) as [[r p]|] eqn:Hv; [done|].
    apply url_verdict_None in Hv as (_ & _ & Hv & _). tauto. }
  pose proof (url_accounting urls O in_scope removed Hf)
    as (Hin & _ & _ & Hcount).
  split.
  - intros u Hd. rewrite Hin, url_kept_true.
    intros (_ & d' & Hd' & Hv). rewrite Hd in Hd'. injection Hd' as <-.
    apply url_verdict_None in Hv as (_ & _ & Hv & _). tauto.
  - rewrite Hcount. unfold removals_under. f_equal.
    apply filter_ext_elem_of. intros u _. split; [|apply Hrem].
    intros (r & p & [? _]%url_removal_Some)%removed_under_Some. done.
Qed.

Lemma domain_entry_blocks_host_witness :
  let urls := ["http://evil.com/a"; "https://EVIL.com:8443/b?c=1";
               "http://good.com/evil.com"] in
  let O := ["evil.com"] in
  let removed : gmap string (nat * string * string) :=
    {[ "evil.com" := (2, "exact domain match", "evil.com") ]} in
  filter_urls urls O = Ok ({[ "http://good.com/evil.com" ]}, removed)
  ∧ (∀ u, hostname_of u = Some "evil.com" →
          u ∉ ({[ "http://good.com/evil.com" ]} : gset string))
  ∧ count_of removed "evil.com"
    = length (filter (λ u, hostname_of u = Some "evil.com") urls).
Proof.
  cbv zeta.
  assert (H : filter_urls (RT:=cpython)
                ["http://evil.com/a"; "https://EVIL.com:8443/b?c=1";
                 "http://good.com/evil.com"] ["evil.com"]
              = Ok ({[ "http://good.com/evil.com" ]},
                    {[ "evil.com" := (2, "exact domain match", "evil.com") ]}))
    by (vm_compute; reflexivity).
  split; [exact H|].
  apply (domain_entry_blocks_host _ ["evil.com"] _ _ "evil.com");
    [left|reflexivity|reflexivity|exact H].
Defined.

(** In URL mode the summary counts every input URL once: the number of
    input URLs is the sum of the counts of the mapping, plus the number of
    in-scope URLs, plus the number of URLs without a hostname, which the
    summary does not show.  The three printed numbers add up exactly when no
    URL was skipped. *)
Theorem summary_urls_accounts `{RT : Runtime} (urls O : list string)
    (in_scope : gset string) (removed : gmap string (nat * string * string)) :
  NoDup urls →
  filter_urls urls O = Ok (in_scope, removed) →
  summary true urls O = Ok (length urls, total_removed removed, size in_scope)
  ∧ length urls
    = total_removed removed + size in_scope
      + length (filter (λ u, hostname_of u = None) urls).
Proof.
  intros Hnd Hf. split; [unfold summary; by rewrite Hf|].
  apply filter_urls_closed in Hf as (_ & -> & ->).
  rewrite total_removed_tally, size_list_to_set_NoDup by (by apply NoDup_filter).
  rewrite (url_three_ways (classify O) urls) at 1.
  unfold total_removed. rewrite map_fold_empty. lia.
Qed.

Lemma summary_urls_accounts_witness :
  let urls := ["http://a.example.com/x"; "https://good.com/y"; "good.com/z"] in
  let O := ["http://a.example.com/*"] in
  NoDup urls
  ∧ summary true urls O = Ok (3, 1, 1)
  ∧ hostname_of "good.com/z" = None
  ∧ ∃ in_scope removed,
      filter_urls urls O = Ok (in_scope, removed)
      ∧ summary true urls O
        = Ok (length urls, total_removed removed, size in_scope)
      ∧ length urls
        = total_removed removed + size in_scope
          + length (filter (λ u, hostname_of u = None) urls).
Proof.
  cbv zeta.
  assert (Hnd : NoDup ["http://a.example.com/x"; "https://good.com/y";
                       "good.com/z"]) by compute_done.
  assert (H : filter_urls (RT:=cpython)
                ["http://a.example.com/x"; "https://good.com/y"; "good.com/z"]
                ["http://a.example.com/*"]
              = Ok ({[ "https://good.com/y" ]},
                    {[ "a.example.com"
                       := (1, "wildcard URL match",
                           "http://a.example.com/*") ]}))
    by (vm_compute; reflexivity).
  split; [exact Hnd|]. split; [vm_compute; reflexivity|].
  split; [vm_compute; reflexivity|].
  eexists _, _. split; [exact H|].
  exact (summary_urls_accounts _ _ _ _ Hnd H).
Defined.

(** A larger out-of-scope set never lets more URLs through: when the filter
    returns, it returns with the larger set too, and every URL then in scope
    was in scope before. *)
Theorem url_more_entries_keep_less `{RT : Runtime} (urls O O' : list string)
    (in_scope : gset string) (removed : gmap string (nat * string * string)) :
  (∀ x, x ∈ O → x ∈ O') →
  filter_urls urls O = Ok (in_scope, removed) →
  ∃ in_scope' removed',
    filter_urls urls O' = Ok (in_scope', removed') ∧ in_scope' ⊆ in_scope.
Proof.
  intros HO Hf. pose proof Hf as (Hall & _)%filter_urls_closed.
  eexists _, _. split; [by apply filter_urls_returns|].
  intros u. rewrite (url_in_scope_iff_aux urls O' _ _ u
                       (filter_urls_returns urls O' Hall)).
  rewrite (url_in_scope_iff_aux urls O in_scope removed u Hf).
  intros (Hu & d & Hd & H1 & H2 & H3 & H4). split; [done|].
  exists d. split; [done|]. repeat split.
  - intros (? & ? & ?). apply H1. auto.
  - intros p ?. apply H2. auto.
  - intros (? & ? & ?). apply H3. auto.
  - intros p ?. apply H4. auto.
Qed.

Lemma url_more_entries_keep_less_witness :
  let urls := ["http://a.example.com/x"; "https://good.com/y"] in
  let O := ["http://a.example.com/*"] in
  let O' := ["good.com"; "http://a.example.com/*"] in
  (∀ x, x ∈ O → x ∈ O')
  ∧ filter_urls urls O
    = Ok ({[ "https://good.com/y" ]},
          {[ "a.example.com"
             := (1, "wildcard URL match", "http://a.example.com/*") ]})
  ∧ ∃ in_scope' removed',
      filter_urls urls O' = Ok (in_scope', removed')
      ∧ in_scope' ⊆ {[ "https://good.com/y" ]}.
Proof.
  cbv zeta.
  assert (HO : ∀ x : string,
            x ∈ ["http://a.example.com/*"]
            → x ∈ ["good.com"; "http://a.example.com/*"]).
  { intros x ->%list_elem_of_singleton. right. left. }
  assert (H : filter_urls (RT:=cpython)
                ["http://a.example.com/x"; "https://good.com/y"]
                ["http://a.example.com/*"]
              = Ok ({[ "https://good.com/y" ]},
                    {[ "a.example.com"
                       := (1, "wildcard URL match",
                           "http://a.example.com/*") ]}))
    by (vm_compute; reflexivity).
  split; [exact HO|]. split; [exact H|].
  exact (url_more_entries_keep_less _ _ _ _ _ HO H).
Defined.

(** Filtering URLs in two passes is filtering once with both out-of-scope
    sets: when a first pass with [O1] returns, a second pass with [O2] over
    its in-scope set returns the in-scope set of one pass with the entries
    of [O1] and [O2] together. *)
Theorem url_two_passes `{RT : Runtime} (urls O1 O2 ks : list string)
    (in_scope1 : gset string) (removed1 : gmap string (nat * string * string)) :
  filter_urls urls O1 = Ok (in_scope1, removed1) →
  list_to_set ks = in_scope1 →
  ∃ in_scope removed removed2,
    filter_urls urls (O1 ++ O2) = Ok (in_scope, removed)
    ∧ filter_urls ks O2 = Ok (in_scope, removed2).
Proof.
  intros Hf Hks. pose proof Hf as (Hall & _)%filter_urls_closed.
  assert (Hks' : ∀ x, x ∈ ks ↔ x ∈ in_scope1).
  { intros x. by rewrite <-Hks, elem_of_list_to_set. }
  assert (Hparse : Forall parses ks).
  { apply Forall_forall. intros x Hx. apply Hks' in Hx.
    apply (url_in_scope_iff_aux urls O1 _ _ x Hf) in Hx
      as (_ & d & Hd & _).
    by apply (hostname_of_parses x d). }
  eexists _, _, _. split; [by apply filter_urls_returns|].
  rewrite (filter_urls_returns ks O2 Hparse). do 2 f_equal.
  apply set_eq. intros x.
  rewrite (url_in_scope_iff_aux urls (O1 ++ O2) _ _ x
             (filter_urls_returns urls (O1 ++ O2) Hall)).
  rewrite (url_in_scope_iff_aux ks O2 _ _ x (filter_urls_returns ks O2 Hparse)).
  rewrite Hks', (url_in_scope_iff_aux urls O1 _ _ x Hf).
  setoid_rewrite elem_of_app. split.
  - intros ((Hx & d & Hd & A1 & A2 & A3 & A4) & d' & Hd' & B1 & B2 & B3 & B4).
    rewrite Hd in Hd'. injection Hd' as <-.
    split; [done|]. exists d. split; [done|]. repeat split.
    + intros ([?|?] & ? & ?); tauto.
    + intros p [?|?]; auto.
    + intros ([?|?] & ? & ?); tauto.
    + intros p [?|?]; auto.
  - intros (Hx & d & Hd & H1 & H2 & H3 & H4). split.
    + split; [done|]. exists d. split; [done|]. repeat split.
      * intros (? & ? & ?). apply H1. auto.
      * intros p ?. apply H2. auto.
      * intros (? & ? & ?). apply H3. auto.
      * intros p ?. apply H4. auto.
    + exists d. split; [done|]. repeat split.
      * intros (? & ? & ?). apply H1. auto.
      * intros p ?. apply H2. auto.
      * intros (? & ? & ?). apply H3. auto.
      * intros p ?. apply H4. auto.
Qed.

Lemma url_two_passes_witness :
  let urls := ["http://a.example.com/x"; "https://good.com/y";
               "http://ok.org/"] in
  let O1 := ["http://a.example.com/*"] in
  let O2 := ["good.com"] in
  filter_urls urls O1
  = Ok ({[ "https://good.com/y"; "http://ok.org/" ]},
        {[ "a.example.com"
           := (1, "wildcard URL match", "http://a.example.com/*") ]})
  ∧ ∃ in_scope removed removed2,
      filter_urls urls (O1 ++ O2) = Ok (in_scope, removed)
      ∧ filter_urls ["http://ok.org/"; "https://good.com/y"] O2
        = Ok (in_scope, removed2).
Proof.
  cbv zeta.
  assert (H : filter_urls (RT:=cpython)
                ["http://a.example.com/x"; "https://good.com/y";
                 "http://ok.org/"] ["http://a.example.com/*"]
              = Ok ({[ "https://good.com/y"; "http://ok.org/" ]},
                    {[ "a.example.com"
                       := (1, "wildcard URL match",
                           "http://a.example.com/*") ]}))
    by (vm_compute; reflexivity).
  split; [exact H|].
  apply (url_two_passes _ _ ["good.com"]
           ["http://ok.org/"; "https://good.com/y"] _ _ H).
  vm_compute. reflexivity.
Defined.

(** With an empty out-of-scope set no URL is removed, and yet the URLs
    without a hostname are lost: the in-scope set holds the input URLs that
    have a hostname and the mapping is empty. *)
Theorem url_nothing_out_of_scope `{RT : Runtime} (urls : list string)
    (in_scope : gset string) (removed : gmap string (nat * string * string)) :
  filter_urls urls [] = Ok (in_scope, removed) →
  removed = ∅
  ∧ ∀ u, u ∈ in_scope ↔ u ∈ urls ∧ hostname_of u ≠ None.
Proof.
  intros Hf. split.
  - apply map_eq. intros d. rewrite lookup_empty.
    destruct (removed !! d) as [[[c r] p]|] eqn:Hd; [|done].
    destruct (lookup_removed_split urls [] in_scope removed d c r p Hf Hd)
      as (_ & u & _ & _ & [_ Hv]%url_removal_Some & _).
    apply url_verdict_Some in Hv
      as [(_ & _ & H & _)|[(_ & H & _)|[(_ & _ & H & _)|(_ & H & _)]]];
      by apply elem_of_nil in H.
  - intros u. rewrite (url_in_scope_iff_aux urls [] _ _ u Hf). split.
    + intros (Hu & d & Hd & _). split; [done|]. by rewrite Hd.
    + intros [Hu Hd]. split; [done|].
      destruct (hostname_of u) as [d|]; [|done]. exists d. split; [done|].
      repeat split; first [by intros [?%elem_of_nil _]
                          |by intros p ?%elem_of_nil].
Qed.

Lemma url_nothing_out_of_scope_witness :
  let urls := ["https://good.com/y"; "good.com/z"] in
  filter_urls urls [] = Ok ({[ "https://good.com/y" ]}, ∅)
  ∧ hostname_of "good.com/z" = None
  ∧ (∅ : gmap string (nat * string * string)) = ∅
  ∧ ∀ u, u ∈ ({[ "https://good.com/y" ]} : gset string) ↔
         u ∈ urls ∧ hostname_of u ≠ None.
Proof.
  cbv zeta.
  assert (H : filter_urls (RT:=cpython) ["https://good.com/y"; "good.com/z"] []
              = Ok ({[ "https://good.com/y" ]}, ∅))
    by (vm_compute; reflexivity).
  split; [exact H|]. split; [vm_compute; reflexivity|].
  exact (url_nothing_out_of_scope _ _ _ H).
Defined.

(** ** The loader, the writer and [main] *)

Section io_more.
Context `{RT : Runtime}.

Lemma load_file_elem_of (f : file) (l : list string) x :
  load_file f = Returns l →
  x ∈ l ↔
  x ≠ EmptyString ∧ ∃ line, line ∈ lines_read f ∧ str_strip line = x.
Proof.
  destruct f as [| |lines|read latin1]; simpl; [done|done| |]; intros [= <-];
    rewrite set_order_elem_of, !load_loop, ?elem_of_nil.
  - tauto.
  - setoid_rewrite elem_of_app. split.
    + intros [[[]|(? & line & ? & ?)]|(? & line & ? & ?)];
        (split; [done|]); exists line; tauto.
    + intros (? & line & [?|?] & ?).
      * left. right. split; [done|]. by exists line.
      * right. split; [done|]. by exists line.
Qed.

Lemma load_file_NoDup (f : file) (l : list string) :
  load_file f = Returns l → NoDup l.
Proof.
  destruct f; simpl; [done|done|..]; intros [= <-]; apply set_order_NoDup.
Qed.

Lemma append_nil_l (s : string) : EmptyString +:+ s = s.
Proof. done. Qed.

Lemma append_cons (a : ascii) (s t : string) :
  String a s +:+ t = String a (s +:+ t).
Proof. done. Qed.

Lemma length_append (s t : string) :
  String.length (s +:+ t) = String.length s + String.length t.
Proof.
  induction s as [|a s IH]; [done|]. rewrite append_cons. simpl. by rewrite IH.
Qed.

Lemma length_str_repeat (c : ascii) (n : nat) :
  String.length (str_repeat c n) = n.
Proof. induction n as [|n IH]; [done|]. simpl. by rewrite <-IH at 2. Qed.

Lemma length_ljust (width : nat) (s : string) :
  String.length (ljust width s) = width `max` String.length s.
Proof. unfold ljust. rewrite length_append, length_str_repeat. lia. Qed.

(** A line with no line feed and no carriage return in it, written with
    its line feed, is read back as one line. *)
Lemma file_lines_line (x rest : string) :
  contains_char "010"%char x = false →
  contains_char "013"%char x = false →
  file_lines (line_of x +:+ rest) = line_of x :: file_lines rest.
Proof.
  unfold line_of, newline. induction x as [|a x IH]; intros Hlf Hcr.
  - rewrite append_nil_l, append_cons, append_nil_l. done.
  - simpl in Hlf, Hcr.
    destruct (decide (a = "010"%char)) as [|Hne]; [done|].
    destruct (decide (a = "013"%char)) as [|Hne']; [done|].
    rewrite !append_cons. cbn [file_lines].
    rewrite decide_False by done. rewrite decide_False by done.
    rewrite <-append_cons, IH by done. by rewrite append_cons.
Qed.

Lemma file_lines_text_of_lines (items : list string) :
  (∀ x, x ∈ items →
     contains_char "010"%char x = false ∧ contains_char "013"%char x = false) →
  file_lines (text_of_lines items) = line_of <$> items.
Proof.
  induction items as [|x items IH]; intros Hall; [done|].
  cbn [text_of_lines foldr]. fold (text_of_lines items).
  destruct (Hall x) as [Hlf Hcr]; [left|].
  rewrite file_lines_line by done.
  rewrite IH by (intros y Hy; apply Hall; by right). done.
Qed.
End io_more.

(** Whenever [load_file] returns, the set it returns holds each stripped,
    non-empty line once and never the empty string; after a decoding failure
    it holds the lines read before the failure together with the lines of
    the second, latin-1 pass, because the set is not emptied in between. *)
Theorem load_file_contents `{RT : Runtime} (f : file) (l : list string) :
  load_file f = Returns l →
  NoDup l
  ∧ (EmptyString ∉ l)
  ∧ ∀ x, x ∈ l ↔
      x ≠ EmptyString ∧ ∃ line, line ∈ lines_read f ∧ str_strip line = x.
Proof.
  intros Hl. split; [by apply (load_file_NoDup f)|]. split.
  - rewrite (load_file_elem_of f l _ Hl). by intros [? _].
  - intros x. by apply load_file_elem_of.
Qed.

Lemma load_file_contents_witness :
  let f := NotUtf8 [line_of "  a.com "] [line_of "b.com"; line_of ""] in
  load_file f = Returns ["a.com"; "b.com"]
  ∧ NoDup ["a.com"; "b.com"]
  ∧ (EmptyString ∉ ["a.com"; "b.com"])
  ∧ ∀ x, x ∈ ["a.com"; "b.com"] ↔
      x ≠ EmptyString ∧ ∃ line, line ∈ lines_read f ∧ str_strip line = x.
Proof.
  cbv zeta.
  assert (H : load_file (RT:=cpython)
                (NotUtf8 [line_of "  a.com "] [line_of "b.com"; line_of ""])
              = Returns ["a.com"; "b.com"]) by (vm_compute; reflexivity).
  split; [exact H|].
  exact (load_file_contents _ _ H).
Defined.

(** The saved file can be loaded again: when no in-scope item has a line
    feed or a carriage return in it, no item is empty and every item comes
    back from its line by stripping, loading the text that [save_to_file]
    writes gives the set that was saved. *)
Theorem saved_file_loads_back `{RT : Runtime} (items : list string) :
  (∀ x, x ∈ items →
     contains_char "010"%char x = false ∧ contains_char "013"%char x = false
     ∧ x ≠ EmptyString ∧ str_strip (line_of x) = x) →
  ∃ l, load_file (Utf8 (file_lines (save_to_file items))) = Returns l
       ∧ NoDup l ∧ ∀ x, x ∈ l ↔ x ∈ items.
Proof.
  intros Hitems. eexists. split; [done|]. split; [apply set_order_NoDup|].
  intros x. rewrite set_order_elem_of, load_loop, elem_of_nil.
  rewrite save_to_file_text, file_lines_text_of_lines.
  2:{ intros y Hy. rewrite sorted_Permutation in Hy.
      destruct (Hitems y Hy) as (? & ? & _). done. }
  setoid_rewrite list_elem_of_fmap. split.
  - intros [[]|(_ & line & (y & -> & Hy) & <-)].
    rewrite sorted_Permutation in Hy.
    destruct (Hitems y Hy) as (_ & _ & _ & ->). done.
  - intros Hx. right. destruct (Hitems x Hx) as (_ & _ & ? & Hs).
    split; [done|]. exists (line_of x). split; [|done].
    exists x. split; [done|]. by rewrite sorted_Permutation.
Qed.

Lemma saved_file_loads_back_witness :
  let items := ["b.com"; "a.com"] in
  (∀ x, x ∈ items →
     contains_char "010"%char x = false ∧ contains_char "013"%char x = false
     ∧ x ≠ EmptyString ∧ str_strip (line_of x) = x)
  ∧ file_lines (save_to_file items) = [line_of "a.com"; line_of "b.com"]
  ∧ ∃ l, load_file (Utf8 (file_lines (save_to_file items))) = Returns l
         ∧ NoDup l ∧ ∀ x, x ∈ l ↔ x ∈ items.
Proof.
  cbv zeta.
  assert (H : ∀ x : string, x ∈ ["b.com"; "a.com"] →
            contains_char "010"%char x = false
            ∧ contains_char "013"%char x = false
            ∧ x ≠ EmptyString
            ∧ @str_strip cpython (line_of x) = x).
  { intros x [ ->|[ ->|[]%elem_of_nil]%elem_of_cons]%elem_of_cons;
      (split; [reflexivity|]); (split; [reflexivity|]); (split; [done|]);
      vm_compute; reflexivity. }
  split; [exact H|]. split; [vm_compute; reflexivity|].
  exact (saved_file_loads_back _ H).
Defined.




(** The subdomain report prints one message when nothing was removed, and
    otherwise a title, a header between two rules, one row for each record
    in the order of the records, and a closing rule.  A row is never cut:
    its width is the sum of the three column widths 40, 15 and 25, each
    enlarged to the text it holds, plus the two separating spaces, so it is
    at least 82 characters although the rules have 80. *)
Theorem subdomain_report_shape (removed : list removal) :
  (removed = [] → length (print_subdomain_removal_info removed) = 1)
  ∧ (removed ≠ [] →
     length (print_subdomain_removal_info removed) = length removed + 5
     ∧ ∀ i, print_subdomain_removal_info removed !! (4 + i)
            = if decide (i < length removed)
              then subdomain_row <$> removed !! i
              else if decide (i = length removed)
                   then Some (str_repeat "-"%char 80)
                   else None)
  ∧ ∀ domain reason pattern,
      String.length (subdomain_row (domain, reason, pattern))
      = (40 `max` String.length domain) + (15 `max` String.length reason)
        + (25 `max` String.length pattern) + 2
      ∧ String.length (str_repeat "-"%char 80) = 80.
Proof.
  split; [by intros ->|]. split.
  - intros Hne. destruct removed as [|r removed]; [done|].
    unfold print_subdomain_removal_info. split.
    + rewrite !length_app, length_fmap. simpl. lia.
    + intros i. rewrite lookup_app_r by (simpl; lia).
      replace (4 + i - length [newline +:+ "Removed Subdomains:";
                               str_repeat "-"%char 80;
                               subdomain_row
                                 ("Subdomain", "Reason", "Matched Pattern");
                               str_repeat "-"%char 80]) with i
        by (simpl; lia).
      destruct (decide (i < length (r :: removed))) as [Hlt|Hge].
      * rewrite lookup_app_l by (by rewrite length_fmap).
        by rewrite list_lookup_fmap.
      * rewrite lookup_app_r by (rewrite length_fmap; lia).
        rewrite length_fmap.
        destruct (decide (i = length (r :: removed))) as [->|Hne'].
        -- by rewrite Nat.sub_diag.
        -- destruct (i - length (r :: removed)) as [|n] eqn:Hn; [lia|done].
  - intros domain reason pattern. split; [|apply length_str_repeat].
    unfold subdomain_row. rewrite !length_append, !length_ljust. simpl. lia.
Qed.

Lemma subdomain_report_shape_witness :
  let removed := [("a.example.com", "wildcard match", "*.example.com");
                  ("evil.com", "exact match", "evil.com")] in
  removed ≠ []
  ∧ length (print_subdomain_removal_info removed) = length removed + 5
  ∧ print_subdomain_removal_info removed !! 5
    = Some (subdomain_row ("evil.com", "exact match", "evil.com"))
  ∧ String.length (subdomain_row ("evil.com", "exact match", "evil.com")) = 82.
Proof.
  cbv zeta.
  assert (Hne : [("a.example.com", "wildcard match", "*.example.com");
                 ("evil.com", "exact match", "evil.com")] ≠ ([] : list removal))
    by done.
  destruct (subdomain_report_shape
              [("a.example.com", "wildcard match", "*.example.com");
               ("evil.com", "exact match", "evil.com")])
    as (_ & Hshape & Hwidth).
  destruct (Hshape Hne) as [Hlen Hrows].
  split; [exact Hne|]. split; [exact Hlen|]. split; [exact (Hrows 1)|].
  exact (proj1 (Hwidth "evil.com" "exact match" "evil.com")).
Defined.

(** On a run of [filter_urls] that returns, the in-scope set holds the kept
    input URLs, a URL without a hostname is in neither output, a URL with a
    hostname is either in scope or counted under its hostname and not both,
    and the count of a hostname is the number of input URLs removed under
    it. *)
Theorem url_accounting_on_return `{RT : Runtime} (urls O : list string)
    (in_scope : gset string) (removed : gmap string (nat * string * string)) :
  filter_urls urls O = Ok (in_scope, removed) →
  (∀ u, u ∈ in_scope ↔ u ∈ urls ∧ url_kept (classify O) u = true)
  ∧ (∀ u, hostname_of u = None →
       (u ∉ in_scope) ∧ removed_under (classify O) u = None)
  ∧ (∀ u d, u ∈ urls → hostname_of u = Some d →
       (u ∈ in_scope ∧ removed_under (classify O) u = None)
       ∨ ((u ∉ in_scope) ∧ removed_under (classify O) u = Some d))
  ∧ (∀ d, count_of removed d = length (removals_under (classify O) d urls)).
Proof. apply url_accounting. Qed.

Lemma url_accounting_on_return_witness :
  let urls := ["http://a.example.com/x"; "https://good.com/y"; "good.com/z"] in
  let O := ["http://a.example.com/*"] in
  let in_scope : gset string := {[ "https://good.com/y" ]} in
  let removed : gmap string (nat * string * string) :=
    {[ "a.example.com"
       := (1, "wildcard URL match", "http://a.example.com/*") ]} in
  filter_urls urls O = Ok (in_scope, removed)
  ∧ hostname_of "good.com/z" = None
  ∧ (∀ u, u ∈ in_scope ↔ u ∈ urls ∧ url_kept (classify O) u = true)
  ∧ (∀ u, hostname_of u = None →
       (u ∉ in_scope) ∧ removed_under (classify O) u = None)
  ∧ (∀ u d, u ∈ urls → hostname_of u = Some d →
       (u ∈ in_scope ∧ removed_under (classify O) u = None)
       ∨ ((u ∉ in_scope) ∧ removed_under (classify O) u = Some d))
  ∧ (∀ d, count_of removed d = length (removals_under (classify O) d urls)).
Proof.
  cbv zeta.
  assert (H : filter_urls (RT:=cpython)
                ["http://a.example.com/x"; "https://good.com/y"; "good.com/z"]
                ["http://a.example.com/*"]
              = Ok ({[ "https://good.com/y" ]},
                    {[ "a.example.com"
                       := (1, "wildcard URL match",
                           "http://a.example.com/*") ]}))
    by (vm_compute; reflexivity).
  split; [exact H|]. split; [vm_compute; reflexivity|].
  exact (url_accounting_on_return _ _ _ _ H).
Defined.
